(** * arris-scrape: the table extractor, record parser and metrics writer

    A shallow embedding of [arris-scrape.go].  The markup tree of
    [golang.org/x/net/html] is kept in the shape the Go code walks it: every
    node has a [FirstChild] and a [NextSibling] link, and the [Parent] link
    is recovered from the route that leads from the page root to the node,
    as it is in a tree built by [html.Parse], whose root has no parent.
    A Go call returns or panics; [strconv.ParseFloat], the [%v] of a
    [float64], the [%q] of a string and the modem behind [client.Do] are
    parameters of the development. *)

From Stdlib Require Import ZArith Lia Ascii String.
From stdpp Require Import base option list strings.

Local Open Scope string_scope.
Local Open Scope Z_scope.

(** ** Markup tree *)

Inductive NodeType : Type :=
| ErrorNode | TextNode | DocumentNode | ElementNode
| CommentNode | DoctypeNode | RawNode.

Definition NodeType_eqb (a b : NodeType) : bool :=
  match a, b with
  | ErrorNode, ErrorNode | TextNode, TextNode | DocumentNode, DocumentNode
  | ElementNode, ElementNode | CommentNode, CommentNode
  | DoctypeNode, DoctypeNode | RawNode, RawNode => true
  | _, _ => false
  end.

Record Attribute : Type := mkAttribute {
  Namespace : string;
  Key : string;
  Val : string
}.

(** A value of type [Node] is what a Go [*html.Node] points to: [nil], or
    a node with its type, data, attributes, first child and next sibling. *)
Inductive Node : Type :=
| nil : Node
| node (Type' : NodeType) (Data : string) (Attr : list Attribute)
       (FirstChild NextSibling : Node) : Node.

(** A pointer into a page is the route from the page root, last step
    first.  [down] follows [FirstChild], [next] follows [NextSibling]. *)
Inductive step : Type := down | next.

Definition ptr : Type := list step.

Fixpoint walk (n : Node) (route : list step) {struct route} : Node :=
  match route with
  | [] => n
  | s :: route' =>
      match n with
      | nil => nil
      | node _ _ _ fc ns =>
          match s with
          | down => walk fc route'
          | next => walk ns route'
          end
      end
  end.

Definition deref (page : Node) (p : ptr) : Node := walk page (rev p).

(** [n.Parent] for a non-nil [n]: siblings share their parent, and the
    first child's parent is the node it hangs from.  The nodes at the level
    of the page root have no parent ([None] is Go's [nil]). *)
Fixpoint Parent (p : ptr) : option ptr :=
  match p with
  | [] => None
  | next :: q => Parent q
  | down :: q => Some q
  end.

(** ** Panics and returned values *)

Inductive panic : Type :=
| NilDereference
| IndexOutOfRange (index : nat) (length : nat).

(** A Go call either returns or panics. *)
Inductive go (A : Type) : Type :=
| Return (a : A)
| Panics (p : panic).
Arguments Return {A} a.
Arguments Panics {A} p.

Definition go_bind {A B : Type} (m : go A) (k : A -> go B) : go B :=
  match m with
  | Return a => k a
  | Panics p => Panics p
  end.

Notation "'let*' x ':=' m 'in' k" := (go_bind m (fun x => k))
  (at level 10, x pattern, m at level 100, k at level 200).

(** ** findTextNode *)

Definition isText (text : string) (n : Node) : bool :=
  match n with
  | nil => false
  | node ty data _ _ _ => NodeType_eqb ty TextNode && String.eqb data text
  end.

(** [findTextNode here n text]: [n] is the node the Go pointer designates
    and [here] its address. *)
Fixpoint findTextNode (here : ptr) (n : Node) (text : string) : option ptr :=
  match n with
  | nil => None
  | node ty data _ fc ns =>
      if NodeType_eqb ty TextNode && String.eqb data text then Some here
      else
        match findTextNode (down :: here) fc text with
        | Some found => Some found
        | None =>
            match findTextNode (next :: here) ns text with
            | Some found => Some found
            | None => None
            end
        end
  end.

(** Document order: a node, then everything below it, then what follows
    it. *)
Fixpoint preorder (here : ptr) (n : Node) : list (ptr * Node) :=
  match n with
  | nil => []
  | node _ _ _ fc ns =>
      (here, n) :: preorder (down :: here) fc ++ preorder (next :: here) ns
  end.

(** No node of the page is a text node with the given text. *)
Definition absent (text : string) (page : Node) : Prop :=
  forall p m, (p, m) ∈ preorder [] page -> isText text m = false.

(** ** Errors *)

Inductive strconvErr : Type := ErrSyntax | ErrRange.

(** [*strconv.NumError] *)
Record NumError : Type := mkNumError {
  Func : string;
  Num : string;
  Err : strconvErr
}.

(** The error values the program meets: [errors.New] and [fmt.Errorf]
    without verbs, [*strconv.NumError], and what the transport and the
    readers report. *)
Inductive error : Type :=
| errorString (s : string)
| numError (e : NumError)
| ioError (s : string).

(** ** strings and strconv, as far as the program uses them *)

(** [strings.Split(s, sep)] for a separator of one byte. *)
Fixpoint Split (s : string) (sep : ascii) : list string :=
  match s with
  | EmptyString => [EmptyString]
  | String c s' =>
      if Ascii.eqb c sep then EmptyString :: Split s' sep
      else
        match Split s' sep with
        | piece :: pieces => String c piece :: pieces
        | [] => [String c EmptyString]
        end
  end.

(** What stands before the first space of a cell. *)
Fixpoint beforeFirstSpace (s : string) : string :=
  match s with
  | EmptyString => EmptyString
  | String c s' =>
      if Ascii.eqb c " "%char then EmptyString else String c (beforeFirstSpace s')
  end.

(** [l[i]] on a slice. *)
Definition index {A : Type} (l : list A) (i : nat) : go A :=
  match l !! i with
  | Some x => Return x
  | None => Panics (IndexOutOfRange i (length l))
  end.

Definition syntaxError (fn str : string) : error :=
  numError {| Func := fn; Num := str; Err := ErrSyntax |}.

Definition rangeError (fn str : string) : error :=
  numError {| Func := fn; Num := str; Err := ErrRange |}.

(** The digit loop of [strconv.ParseUint(s, 10, 64)]: [n] is the value
    read so far. *)
Fixpoint ParseUint_digits (s : string) (n : Z) : Z * option strconvErr :=
  match s with
  | EmptyString => (n, None)
  | String c s' =>
      let d := Z.of_nat (nat_of_ascii c) - 48 in
      if (d <? 0) || (9 <? d) then (0, Some ErrSyntax)
      else if (2 ^ 64 - 1) / 10 + 1 <=? n then (2 ^ 64 - 1, Some ErrRange)
      else
        let n1 := n * 10 + d in
        if 2 ^ 64 - 1 <? n1 then (2 ^ 64 - 1, Some ErrRange)
        else ParseUint_digits s' n1
  end.

Definition ParseUint (s : string) : Z * option strconvErr :=
  match s with
  | EmptyString => (0, Some ErrSyntax)
  | _ => ParseUint_digits s 0
  end.

(** [strconv.ParseInt(s, 10, 64)] *)
Definition ParseInt (s : string) : Z * option error :=
  match s with
  | EmptyString => (0, Some (syntaxError "ParseInt" s))
  | String c s' =>
      let neg := Ascii.eqb c "-"%char in
      let digits :=
        if Ascii.eqb c "+"%char || Ascii.eqb c "-"%char then s' else s in
      match ParseUint digits with
      | (_, Some ErrSyntax) => (0, Some (syntaxError "ParseInt" s))
      | (un, _) =>
          if negb neg && (2 ^ 63 <=? un) then
            (2 ^ 63 - 1, Some (rangeError "ParseInt" s))
          else if neg && (2 ^ 63 <? un) then
            (- 2 ^ 63, Some (rangeError "ParseInt" s))
          else (if neg then - un else un, None)
      end
  end.

(** [strconv.Atoi] where [int] has 64 bits: the value of [ParseInt], its
    error renamed. *)
Definition Atoi (s : string) : Z * option error :=
  match ParseInt s with
  | (i, Some (numError e)) =>
      (i, Some (numError {| Func := "Atoi"; Num := Num e; Err := Err e |}))
  | r => r
  end.

(** ** scrapeTable *)

(** [len(Attr) == 1 && Attr[0].Key == "align" && Attr[0].Val == "left"] *)
Definition isDataRow (attr : list Attribute) : bool :=
  Nat.eqb (length attr) 1 &&
  match attr with
  | a :: _ => String.eqb (Key a) "align" && String.eqb (Val a) "left"
  | [] => false
  end.

(** The inner loop: [columnPtr] walks the row's children. *)
Fixpoint scrapeColumns (columnPtr : Node) (vals : list string) : go (list string) :=
  match columnPtr with
  | nil => Return vals
  | node _ data _ fc ns =>
      if String.eqb data "td" then
        match fc with
        | nil => Panics NilDereference
        | node _ text _ _ _ => scrapeColumns ns (vals ++ [text])
        end
      else scrapeColumns ns vals
  end.

(** The outer loop: [rowPtr] walks the node it is given and the siblings
    that follow it. *)
Fixpoint scrapeRows (rowPtr : Node) (scraped : list (list string))
  : go (list (list string)) :=
  match rowPtr with
  | nil => Return scraped
  | node _ _ attr fc ns =>
      if isDataRow attr then
        let* vals := scrapeColumns fc [] in
        scrapeRows ns (scraped ++ [vals])
      else scrapeRows ns scraped
  end.

Definition scrapeTable (rowPtr : Node) : go (list (list string)) :=
  scrapeRows rowPtr [].

(** [p.Parent] on a pointer that may be nil, and the node a pointer
    designates. *)
Definition getParent (p : option ptr) : go (option ptr) :=
  match p with
  | None => Panics NilDereference
  | Some q => Return (Parent q)
  end.

Definition target (page : Node) (p : option ptr) : Node :=
  match p with
  | None => nil
  | Some q => deref page q
  end.

(** [tableTitle.Parent.Parent.Parent] *)
Definition threeUp (tableTitle : ptr) : go (option ptr) :=
  let* p1 := getParent (Some tableTitle) in
  let* p2 := getParent p1 in
  getParent p2.

(** ** The tree in the words of the specification *)

(** A node and the siblings that follow it, in document order. *)
Fixpoint siblings (n : Node) : list Node :=
  match n with
  | nil => []
  | node _ _ _ _ ns => n :: siblings ns
  end.

Definition children (n : Node) : list Node :=
  match n with
  | nil => []
  | node _ _ _ fc _ => siblings fc
  end.

Definition attrs (n : Node) : list Attribute :=
  match n with
  | nil => []
  | node _ _ a _ _ => a
  end.

Definition dataOf (n : Node) : string :=
  match n with
  | nil => EmptyString
  | node _ d _ _ _ => d
  end.

(** Exactly one attribute, named align, with value left. *)
Definition qualifies (n : Node) : bool :=
  match attrs n with
  | [a] => String.eqb (Key a) "align" && String.eqb (Val a) "left"
  | _ => false
  end.

Definition isCell (n : Node) : bool := String.eqb (dataOf n) "td".

(** The text of a cell: the data of its first child. *)
Definition cellText (c : Node) : go string :=
  match children c with
  | [] => Panics NilDereference
  | t :: _ => Return (dataOf t)
  end.

Fixpoint go_mapM {A B : Type} (f : A -> go B) (l : list A) : go (list B) :=
  match l with
  | [] => Return []
  | x :: l' =>
      let* y := f x in
      let* ys := go_mapM f l' in
      Return (y :: ys)
  end.

Definition rowCells (r : Node) : go (list string) :=
  go_mapM cellText (List.filter isCell (children r)).

(** ** Records *)

Module Down.
Record downstreamChannel (float64 : Type) : Type := mk {
  ChannelID : string;
  LockStatus : string;
  Modulation : string;
  FrequencyHz : Z;
  PowerdBmV : float64;
  SNRMERdB : float64;
  Corrected : Z;
  Uncorrectables : Z
}.
Arguments mk {float64}.
Arguments ChannelID {float64}.
Arguments LockStatus {float64}.
Arguments Modulation {float64}.
Arguments FrequencyHz {float64}.
Arguments PowerdBmV {float64}.
Arguments SNRMERdB {float64}.
Arguments Corrected {float64}.
Arguments Uncorrectables {float64}.
End Down.

Module Up.
Record upstreamChannel (float64 : Type) : Type := mk {
  Channel : string;
  ChannelID : string;
  LockStatus : string;
  ChannelType : string;
  FrequencyHz : Z;
  WidthHz : Z;
  PowerdBmV : float64
}.
Arguments mk {float64}.
Arguments Channel {float64}.
Arguments ChannelID {float64}.
Arguments LockStatus {float64}.
Arguments ChannelType {float64}.
Arguments FrequencyHz {float64}.
Arguments WidthHz {float64}.
Arguments PowerdBmV {float64}.
End Up.

Abbreviation downstreamChannel := Down.downstreamChannel.
Abbreviation upstreamChannel := Up.upstreamChannel.

Definition space : ascii := " "%char.

(** ** The record parser *)

Section Parser.

(** [float64], and [strconv.ParseFloat(s, 64)] on it; its errors have the
    concrete type [*NumError]. *)
Variable float64 : Type.
Variable ParseFloat : string -> float64 * option NumError.

(** The body of the loop of [parseDownstream] for one row: the record,
    or the error the function returns with. *)
Definition downstreamRow (row : list string)
  : go (error + downstreamChannel float64) :=
  let* c3 := index row 3 in
  let* s3 := index (Split c3 space) 0 in
  match ParseInt s3 with
  | (_, Some err) => Return (inl err)
  | (frequencyHz, None) =>
  let* c4 := index row 4 in
  let* s4 := index (Split c4 space) 0 in
  match ParseFloat s4 with
  | (_, Some err) => Return (inl (numError err))
  | (powerdBmV, None) =>
  let* c5 := index row 5 in
  let* s5 := index (Split c5 space) 0 in
  match ParseFloat s5 with
  | (_, Some err) => Return (inl (numError err))
  | (snrMERdB, None) =>
  let* c6 := index row 6 in
  match Atoi c6 with
  | (_, Some err) => Return (inl err)
  | (corrected, None) =>
  let* c7 := index row 7 in
  match Atoi c7 with
  | (_, Some err) => Return (inl err)
  | (uncorrectables, None) =>
  let* c0 := index row 0 in
  let* c1 := index row 1 in
  let* c2 := index row 2 in
  Return (inr (Down.mk c0 c1 c2 frequencyHz powerdBmV snrMERdB
                       corrected uncorrectables))
  end end end end end.

Fixpoint parseDownstreamRows (rows : list (list string))
    (data : list (downstreamChannel float64))
  : go (list (downstreamChannel float64) * option error) :=
  match rows with
  | [] => Return (data, None)
  | row :: rows' =>
      let* r := downstreamRow row in
      match r with
      | inl err => Return ([], Some err)
      | inr d => parseDownstreamRows rows' (data ++ [d])
      end
  end.

Definition parseDownstream (page : Node)
  : go (list (downstreamChannel float64) * option error) :=
  match findTextNode [] page "Downstream Bonded Channels" with
  | None =>
      Return ([], Some (errorString
                "unable to find downstream bonded channels table"))
  | Some tableTitle =>
      let* rowPtr := threeUp tableTitle in
      let* rows := scrapeTable (target page rowPtr) in
      parseDownstreamRows rows []
  end.

Definition upstreamRow (row : list string)
  : go (error + upstreamChannel float64) :=
  let* c4 := index row 4 in
  let* s4 := index (Split c4 space) 0 in
  match ParseInt s4 with
  | (_, Some err) => Return (inl err)
  | (frequencyHz, None) =>
  let* c5 := index row 5 in
  let* s5 := index (Split c5 space) 0 in
  match ParseInt s5 with
  | (_, Some err) => Return (inl err)
  | (widthHz, None) =>
  let* c6 := index row 6 in
  let* s6 := index (Split c6 space) 0 in
  match ParseFloat s6 with
  | (_, Some err) => Return (inl (numError err))
  | (powerdBmV, None) =>
  let* c0 := index row 0 in
  let* c1 := index row 1 in
  let* c2 := index row 2 in
  let* c3 := index row 3 in
  Return (inr (Up.mk c0 c1 c2 c3 frequencyHz widthHz powerdBmV))
  end end end.

Fixpoint parseUpstreamRows (rows : list (list string))
    (data : list (upstreamChannel float64))
  : go (list (upstreamChannel float64) * option error) :=
  match rows with
  | [] => Return (data, None)
  | row :: rows' =>
      let* r := upstreamRow row in
      match r with
      | inl err => Return ([], Some err)
      | inr u => parseUpstreamRows rows' (data ++ [u])
      end
  end.

Definition parseUpstream (page : Node)
  : go (list (upstreamChannel float64) * option error) :=
  match findTextNode [] page "Upstream Bonded Channels" with
  | None =>
      Return ([], Some (errorString
                "unable to find upstream bonded channels table"))
  | Some tableTitle =>
      let* rowPtr := threeUp tableTitle in
      let* rows := scrapeTable (target page rowPtr) in
      parseUpstreamRows rows []
  end.

End Parser.

Arguments downstreamRow {float64} ParseFloat row.
Arguments parseDownstreamRows {float64} ParseFloat rows data.
Arguments parseDownstream {float64} ParseFloat page.
Arguments upstreamRow {float64} ParseFloat row.
Arguments parseUpstreamRows {float64} ParseFloat rows data.
Arguments parseUpstream {float64} ParseFloat page.

(** ** Numbers in the words of the specification *)

(** The number a run of decimal digits denotes, read after [acc]. *)
Fixpoint digitsValue (s : string) (acc : Z) : option Z :=
  match s with
  | EmptyString => Some acc
  | String c s' =>
      let d := Z.of_nat (nat_of_ascii c) - 48 in
      if (0 <=? d) && (d <=? 9) then digitsValue s' (acc * 10 + d) else None
  end.

(** The integer a text denotes: digits, after at most one sign. *)
Definition decimalValue (s : string) : option Z :=
  match s with
  | EmptyString => None
  | String c s' =>
      if Ascii.eqb c "-"%char then
        match s' with
        | EmptyString => None
        | _ => Z.opp <$> digitsValue s' 0
        end
      else if Ascii.eqb c "+"%char then
        match s' with
        | EmptyString => None
        | _ => digitsValue s' 0
        end
      else digitsValue s 0
  end.

(** A text that denotes an integer of 64 bits. *)
Definition int64Text (s : string) : Prop :=
  exists v, decimalValue s = Some v /\ - 2 ^ 63 <= v <= 2 ^ 63 - 1.

(** ** The column schema in the words of the specification *)

Section Schema.

Variable float64 : Type.
Variable ParseFloat : string -> float64 * option NumError.

(** A text that converts to a [float64]. *)
Definition floatText (s : string) : Prop := exists v, ParseFloat s = (v, None).

(** A downstream row: eight columns at least, the frequency, the power and
    the ratio numbers that a unit may follow after a space, the two
    counters plain integers. *)
Definition downstreamSchema (row : list string) : Prop :=
  exists c0 c1 c2 c3 c4 c5 c6 c7 more,
    row = ([c0; c1; c2; c3; c4; c5; c6; c7] ++ more)%list /\
    int64Text (beforeFirstSpace c3) /\
    floatText (beforeFirstSpace c4) /\
    floatText (beforeFirstSpace c5) /\
    int64Text c6 /\
    int64Text c7.

(** The record of a row: the strings of columns 0 to 2, and in columns 3
    to 7 the number that stands before the first space. *)
Definition downstreamRecordOf (row : list string)
    (d : downstreamChannel float64) : Prop :=
  row !! 0%nat = Some (Down.ChannelID d) /\
  row !! 1%nat = Some (Down.LockStatus d) /\
  row !! 2%nat = Some (Down.Modulation d) /\
  (exists c, row !! 3%nat = Some c /\
             decimalValue (beforeFirstSpace c) = Some (Down.FrequencyHz d)) /\
  (exists c, row !! 4%nat = Some c /\
             ParseFloat (beforeFirstSpace c) = (Down.PowerdBmV d, None)) /\
  (exists c, row !! 5%nat = Some c /\
             ParseFloat (beforeFirstSpace c) = (Down.SNRMERdB d, None)) /\
  (exists c, row !! 6%nat = Some c /\
             decimalValue (beforeFirstSpace c) = Some (Down.Corrected d)) /\
  (exists c, row !! 7%nat = Some c /\
             decimalValue (beforeFirstSpace c) = Some (Down.Uncorrectables d)).

End Schema.

Arguments floatText {float64} ParseFloat s.
Arguments downstreamSchema {float64} ParseFloat row.
Arguments downstreamRecordOf {float64} ParseFloat row d.

(** ** The fetcher *)

(** [%v] on an [int] or [int64]. *)
Definition digitChar (d : Z) : ascii := ascii_of_nat (Z.to_nat (48 + d)).

Fixpoint digitsOf (fuel : nat) (n : Z) (acc : string) : string :=
  match fuel with
  | O => acc
  | S fuel' =>
      let acc' := String (digitChar (n mod 10)) acc in
      if n <? 10 then acc' else digitsOf fuel' (n / 10) acc'
  end.

Definition FormatInt (n : Z) : string :=
  let body := digitsOf (S (Z.to_nat (Z.log2 (Z.abs n)))) (Z.abs n) EmptyString in
  if n <? 0 then String "-"%char body else body.

Definition newline : string := String (ascii_of_nat 10) EmptyString.

(** [*http.Request], as far as the program sets it. *)
Record Request : Type := mkRequest {
  Method : string;
  URL : string;
  BasicAuth : option (string * string)
}.

Definition SetBasicAuth (req : Request) (username password : string) : Request :=
  {| Method := Method req; URL := URL req;
     BasicAuth := Some (username, password) |}.

(** The [fetcher]; its mutex serialises the calls of [fetchPage], which
    are modelled one at a time. *)
Record fetcher : Type := mkFetcher {
  addr : string;
  username : string;
  passwd : string;
  token : string
}.

Definition setToken (f : fetcher) (t : string) : fetcher :=
  {| addr := addr f; username := username f; passwd := passwd f; token := t |}.

Section Fetcher.

Variable float64 : Type.
Variable ParseFloat : string -> float64 * option NumError.
(** [%v] on a [float64] and [%q] on a string. *)
Variable FormatFloat : float64 -> string.
Variable Quote : string -> string.

(** The modem and the network between: [World] is their state, [Body] a
    response body still to be read. *)
Variable World : Type.
Variable Body : Type.
(** [client.Do]: the answer and the world after the exchange. *)
Variable Do : Request -> World -> (error + Body) * World.
(** [io.ReadAll] and [html.Parse] on a response body. *)
Variable ReadAll : Body -> string * option error.
Variable html_Parse : Body -> Node * option error.
(** The error of [url.Parse], if any, and [base64.URLEncoding]. *)
Variable url_Parse : string -> option error.
Variable EncodeToString : string -> string.

(** What a run carries along: the fetcher, the world, the requests handed
    to [client.Do] so far and the bytes written to the [io.Writer]. *)
Record state : Type := mkState {
  fet : fetcher;
  world : World;
  sent : list Request;
  written : string
}.

Definition withFetcher (s : state) (f : fetcher) : state :=
  {| fet := f; world := world s; sent := sent s; written := written s |}.

Definition NewRequestWithContext (method url : string) : error + Request :=
  match url_Parse url with
  | Some err => inl err
  | None => inr {| Method := method; URL := url; BasicAuth := None |}
  end.

Definition client_Do (req : Request) (s : state) : (error + Body) * state :=
  let (answer, w) := Do req (world s) in
  (answer,
   {| fet := fet s; world := w; sent := sent s ++ [req]; written := written s |}).

(** The operands of [Fprintf] in this program. *)
Inductive operand : Type :=
| ofString (x : string)
| ofInt (x : Z)
| ofFloat (x : float64).

(** One verb applied to one operand: [%q] on a string, [%v] on a number
    or a string (the program uses no other pairing). *)
Definition formatOperand (verb : ascii) (a : operand) : string :=
  match a with
  | ofString x => if Ascii.eqb verb "q"%char then Quote x else x
  | ofInt x => FormatInt x
  | ofFloat x => FormatFloat x
  end.

(** [fmt.Sprintf]: a percent sign and the byte after it consume one
    operand, everything else is copied (the formats of the program never
    run out of operands). *)
Fixpoint Sprintf (format : string) (args : list operand) : string :=
  match format with
  | EmptyString => EmptyString
  | String c rest =>
      if Ascii.eqb c "%"%char then
        match rest, args with
        | String verb rest', a :: args' =>
            formatOperand verb a +:+ Sprintf rest' args'
        | _, _ => String c EmptyString
        end
      else String c (Sprintf rest args)
  end.

(** [w.Write(p)] on the writer. *)
Definition Write (s : state) (p : string) : state :=
  {| fet := fet s; world := world s; sent := sent s;
     written := written s +:+ p |}.

(** [fmt.Fprintf(w, format, args...)] for a format that ends with a
    newline escape, written here as [newline]. *)
Definition Fprintf (format : string) (args : list operand) (s : state) : state :=
  Write s (Sprintf (format +:+ newline) args).

Definition fetchPageInner (s : state) : (Node * option error) * state :=
  let url := "https://" +:+ addr (fet s) +:+ "/cmconnectionstatus.html?ct_"
             +:+ token (fet s) in
  match NewRequestWithContext "GET" url with
  | inl err => ((nil, Some err), s)
  | inr req =>
      match client_Do req s with
      | (inl err, s1) => ((nil, Some err), s1)
      | (inr body, s1) => (html_Parse body, s1)
      end
  end.

(** The handshake and the fetch that follows it: the second half of
    [fetchPage]. *)
Definition authenticate (s : state) : (Node * option error) * state :=
  let f := fet s in
  let authURL := "https://" +:+ addr f +:+ "/cmconnectionstatus.html?login_"
                 +:+ EncodeToString (username f +:+ ":" +:+ passwd f) in
  match NewRequestWithContext "GET" ("https://" +:+ addr f) with
  | inl err => ((nil, Some err), s)
  | inr loginPageReq =>
  match client_Do loginPageReq s with
  | (inl err, s1) => ((nil, Some err), s1)
  | (inr _, s1) =>
  match NewRequestWithContext "GET" authURL with
  | inl err => ((nil, Some err), s1)
  | inr authReq =>
  match client_Do (SetBasicAuth authReq (username f) (passwd f)) s1 with
  | (inl err, s2) => ((nil, Some err), s2)
  | (inr authResp, s2) =>
  match ReadAll authResp with
  | (_, Some err) => ((nil, Some err), s2)
  | (tok, None) => fetchPageInner (withFetcher s2 (setToken (fet s2) tok))
  end end end end end.

(** [fetchPage]: without a token the handshake at once; with one, the
    direct fetch first, and the handshake when the page shows Login. *)
Definition fetchPage (s : state) : (Node * option error) * state :=
  if String.eqb (token (fet s)) EmptyString then authenticate s
  else
    match fetchPageInner s with
    | ((_, Some err), s1) => ((nil, Some err), s1)
    | ((page, None), s1) =>
        match findTextNode [] page "Login" with
        | None => ((page, None), s1)
        | Some _ => authenticate s1
        end
    end.

Definition writeDownstream (s : state) (d : downstreamChannel float64) : state :=
  let s := Fprintf "downstream_bonded_channels_frequency_hz{channel_id=%q} %v"
             [ofString (Down.ChannelID d); ofInt (Down.FrequencyHz d)] s in
  let s := Fprintf "downstream_bonded_channels_power_dbmv{channel_id=%q} %v"
             [ofString (Down.ChannelID d); ofFloat (Down.PowerdBmV d)] s in
  let s := Fprintf "downstream_bonded_channels_snr_mer_db{channel_id=%q} %v"
             [ofString (Down.ChannelID d); ofFloat (Down.SNRMERdB d)] s in
  let s := Fprintf "downstream_bonded_channels_corrected{channel_id=%q} %v"
             [ofString (Down.ChannelID d); ofInt (Down.Corrected d)] s in
  Fprintf "downstream_bonded_channels_uncorrectables{channel_id=%q} %v"
    [ofString (Down.ChannelID d); ofInt (Down.Uncorrectables d)] s.

Definition writeUpstream (s : state) (u : upstreamChannel float64) : state :=
  let s := Fprintf "upstream_bonded_channels_frequency_hz{channel_id=%q} %v"
             [ofString (Up.ChannelID u); ofInt (Up.FrequencyHz u)] s in
  let s := Fprintf "upstream_bonded_channels_width_hz{channel_id=%q} %v"
             [ofString (Up.ChannelID u); ofInt (Up.WidthHz u)] s in
  Fprintf "upstream_bonded_channels_power_dbmv{channel_id=%q} %v"
    [ofString (Up.ChannelID u); ofFloat (Up.PowerdBmV u)] s.

(** What [writeMetrics] does with the page once it is fetched. *)
Definition writePage (page : Node) (s1 : state) : go (option error) * state :=
  match findTextNode [] page "Login" with
  | Some _ => (Return (Some (errorString "Unable to get past login page")), s1)
  | None =>
  match parseDownstream ParseFloat page with
  | Panics p => (Panics p, s1)
  | Return (_, Some err) => (Return (Some err), s1)
  | Return (downstream, None) =>
  let s2 := fold_left writeDownstream downstream s1 in
  match parseUpstream ParseFloat page with
  | Panics p => (Panics p, s2)
  | Return (_, Some err) => (Return (Some err), s2)
  | Return (upstream, None) =>
  let s3 := fold_left writeUpstream upstream s2 in
  (Return None, s3)
  end end end.

Definition writeMetrics (s : state) : go (option error) * state :=
  match fetchPage s with
  | ((_, Some err), s1) => (Return (Some err), s1)
  | ((page, None), s1) => writePage page s1
  end.

(** The requests in the words of the specification: the status page under
    a token, the root page, and the login challenge with the credentials
    attached. *)
Definition pageRequest (f : fetcher) (tok : string) : Request :=
  {| Method := "GET";
     URL := "https://" +:+ addr f +:+ "/cmconnectionstatus.html?ct_" +:+ tok;
     BasicAuth := None |}.

Definition loginPageRequest (f : fetcher) : Request :=
  {| Method := "GET"; URL := "https://" +:+ addr f; BasicAuth := None |}.

Definition authRequest (f : fetcher) : Request :=
  {| Method := "GET";
     URL := "https://" +:+ addr f +:+ "/cmconnectionstatus.html?login_"
            +:+ EncodeToString (username f +:+ ":" +:+ passwd f);
     BasicAuth := Some (username f, passwd f) |}.

(** All that one fetch may send, in order: the status page under the cached
    token if there is one, then the handshake, then the status page under
    the token [tok] the handshake read. *)
Definition fetchRequests (f : fetcher) (tok : string) : list Request :=
  (if String.eqb (token f) EmptyString then []
   else [pageRequest f (token f)])
  ++ [loginPageRequest f; authRequest f; pageRequest f tok].

(** The exposition lines in the words of the specification: one line per
    field, the label value quoted, the number as it prints. *)
Definition metricLine (name id value : string) : string :=
  name +:+ "{channel_id=" +:+ Quote id +:+ "} " +:+ value +:+ newline.

Definition downstreamLines (d : downstreamChannel float64) : list string :=
  [ metricLine "downstream_bonded_channels_frequency_hz" (Down.ChannelID d)
      (FormatInt (Down.FrequencyHz d));
    metricLine "downstream_bonded_channels_power_dbmv" (Down.ChannelID d)
      (FormatFloat (Down.PowerdBmV d));
    metricLine "downstream_bonded_channels_snr_mer_db" (Down.ChannelID d)
      (FormatFloat (Down.SNRMERdB d));
    metricLine "downstream_bonded_channels_corrected" (Down.ChannelID d)
      (FormatInt (Down.Corrected d));
    metricLine "downstream_bonded_channels_uncorrectables" (Down.ChannelID d)
      (FormatInt (Down.Uncorrectables d)) ].

Definition upstreamLines (u : upstreamChannel float64) : list string :=
  [ metricLine "upstream_bonded_channels_frequency_hz" (Up.ChannelID u)
      (FormatInt (Up.FrequencyHz u));
    metricLine "upstream_bonded_channels_width_hz" (Up.ChannelID u)
      (FormatInt (Up.WidthHz u));
    metricLine "upstream_bonded_channels_power_dbmv" (Up.ChannelID u)
      (FormatFloat (Up.PowerdBmV u)) ].

Definition metricLines (ds : list (downstreamChannel float64))
    (us : list (upstreamChannel float64)) : list string :=
  flat_map downstreamLines ds ++ flat_map upstreamLines us.

Definition concatLines (ls : list string) : string :=
  fold_right String.append EmptyString ls.

End Fetcher.

Arguments fet {World} s.
Arguments world {World} s.
Arguments sent {World} s.
Arguments written {World} s.
Arguments Write {World} s p.
Arguments client_Do {World Body} Do req s.
Arguments fetchPageInner {World Body} Do html_Parse url_Parse s.
Arguments authenticate {World Body} Do ReadAll html_Parse url_Parse
  EncodeToString s.
Arguments fetchPage {World Body} Do ReadAll html_Parse url_Parse
  EncodeToString s.
Arguments writeDownstream {float64} FormatFloat Quote {World} s d.
Arguments writeUpstream {float64} FormatFloat Quote {World} s u.
Arguments writePage {float64} ParseFloat FormatFloat Quote {World} page s1.
Arguments writeMetrics {float64} ParseFloat FormatFloat Quote {World Body}
  Do ReadAll html_Parse url_Parse EncodeToString s.
Arguments downstreamLines {float64} FormatFloat Quote d.
Arguments upstreamLines {float64} FormatFloat Quote u.
Arguments metricLines {float64} FormatFloat Quote ds us.

(** ** Sample pages and a scripted modem *)

Module Sample.

Definition text (s : string) (ns : Node) : Node := node TextNode s [] nil ns.

Definition element (tag : string) (attr : list Attribute) (fc ns : Node) : Node :=
  node ElementNode tag attr fc ns.

Definition alignLeft : list Attribute :=
  [{| Namespace := EmptyString; Key := "align"; Val := "left" |}].

Fixpoint tdsThen (cells : list string) (rest : Node) : Node :=
  match cells with
  | [] => rest
  | c :: cells' => element "td" [] (text c nil) (tdsThen cells' rest)
  end.

Definition tds (cells : list string) : Node := tdsThen cells nil.

Definition dataRow (cells : list string) (ns : Node) : Node :=
  element "tr" alignLeft (tds cells) ns.

(** The heading row as the modem prints it: the title in bold in a header
    cell. *)
Definition titleRow (title : string) (ns : Node) : Node :=
  element "tr" []
    (element "th" [] (element "strong" [] (text title nil) nil) nil) ns.

(** A heading row whose title sits directly in the header cell. *)
Definition plainTitleRow (title : string) (ns : Node) : Node :=
  element "tr" [] (element "th" [] (text title nil) nil) ns.

Definition table (rows : Node) (ns : Node) : Node :=
  element "table" [] (element "tbody" [] rows nil) ns.

Definition document (body : Node) : Node :=
  node DocumentNode EmptyString []
    (element "html" [] (element "head" [] nil (element "body" [] body nil)) nil)
    nil.

Definition downCells : list string :=
  ["1"; "Locked"; "QAM256"; "543000000 Hz"; "-2.3 dBmV"; "39.5 dB"; "12"; "0"].

Definition downCells2 : list string :=
  ["2"; "Locked"; "QAM256"; "549000000 Hz"; "-2.1 dBmV"; "39.8 dB"; "7"; "3"].

Definition upCells : list string :=
  ["1"; "4"; "Locked"; "SC-QAM Upstream"; "22800000 Hz"; "6400000 Hz";
   "42.5 dBmV"].

Definition statusPage : Node :=
  document
    (table (titleRow "Downstream Bonded Channels"
              (dataRow downCells (dataRow downCells2 nil)))
       (table (titleRow "Upstream Bonded Channels" (dataRow upCells nil)) nil)).

(** The same downstream table with the title directly in the header cell:
    three levels above the title is the table body, not a row. *)
Definition plainTitlePage : Node :=
  document
    (table (plainTitleRow "Downstream Bonded Channels" (dataRow downCells nil))
       nil).

Definition loginPage : Node :=
  document (element "h1" [] (text "Login" nil) nil).

(** A data row that is too short, and one with an empty cell. *)
Definition shortRowPage : Node :=
  document
    (table (titleRow "Downstream Bonded Channels"
              (dataRow ["1"; "Locked"; "QAM256"] nil)) nil).

Definition emptyCell (ns : Node) : Node := element "td" [] nil ns.

Definition emptyCellRow : Node :=
  element "tr" alignLeft (element "td" [] (text "1" nil) (emptyCell nil)) nil.

(** A row whose frequency does not convert and whose power cell is
    empty. *)
Definition badFrequencyRow : Node :=
  element "tr" alignLeft
    (tdsThen ["1"; "Locked"; "QAM256"; "abc Hz"]
       (emptyCell (tds ["39.5 dB"; "12"; "0"]))) nil.

Definition badFrequencyPage : Node :=
  document (table (titleRow "Downstream Bonded Channels" badFrequencyRow) nil).

Definition emptyCellPage : Node :=
  document (table (titleRow "Downstream Bonded Channels" emptyCellRow) nil).

(** A paragraph aligned left whose only child is the text td. *)
Definition tdTextRow : Node := element "p" alignLeft (text "td" nil) nil.

(** Conversions to run the examples with: a [float64] is kept as the
    decimal literal it was read from, and [%q] puts a text without quotes,
    backslashes or control bytes between double quotes. *)
Definition isDecimalByte (c : ascii) : bool :=
  let n := nat_of_ascii c in
  ((48 <=? n) && (n <=? 57))%nat || Ascii.eqb c "."%char || Ascii.eqb c "-"%char.

Fixpoint allDecimal (s : string) : bool :=
  match s with
  | EmptyString => true
  | String c s' => isDecimalByte c && allDecimal s'
  end.

Definition ParseFloat (s : string) : string * option NumError :=
  match s with
  | EmptyString =>
      (EmptyString, Some {| Func := "ParseFloat"; Num := s; Err := ErrSyntax |})
  | _ => if allDecimal s then (s, None)
         else (EmptyString,
               Some {| Func := "ParseFloat"; Num := s; Err := ErrSyntax |})
  end.

Definition FormatFloat (x : string) : string := x.

Definition doubleQuote : ascii := ascii_of_nat 34.

Definition Quote (s : string) : string :=
  String doubleQuote (s +:+ String doubleQuote EmptyString).

(** A scripted modem: the world is the list of answers still to come, a
    body is the tree it parses to together with the bytes it reads as. *)
Record Body : Type := mkBody { parsed : Node; raw : string }.

Definition World : Type := list (error + Body).

Definition Do (req : Request) (w : World) : (error + Body) * World :=
  match w with
  | [] => (inl (ioError "connection refused"), [])
  | answer :: w' => (answer, w')
  end.

Definition ReadAll (b : Body) : string * option error := (raw b, None).

Definition html_Parse (b : Body) : Node * option error := (parsed b, None).

Definition url_Parse (url : string) : option error := None.

Definition EncodeToString (s : string) : string := s.

Definition pageBody (page : Node) : Body := {| parsed := page; raw := EmptyString |}.

Definition tokenBody (tok : string) : Body := {| parsed := nil; raw := tok |}.

Definition modem : fetcher :=
  {| addr := "192.168.100.1"; username := "admin"; passwd := "secret";
     token := "stale" |}.

Definition start (w : World) : state World :=
  {| fet := modem; world := w; sent := []; written := EmptyString |}.

(** The program on the scripted modem. *)
Definition fetch (s : state World) : (Node * option error) * state World :=
  fetchPage Do ReadAll html_Parse url_Parse EncodeToString s.

Definition run (s : state World) : go (option error) * state World :=
  writeMetrics ParseFloat FormatFloat Quote Do ReadAll
    html_Parse url_Parse EncodeToString s.

(** The heading of the downstream table of [statusPage], and the header
    row three levels above it. *)
Definition downTitle : ptr := [down; down; down; down; down; down; next; down; down].

Definition downHeaderRow : ptr := [down; down; down; next; down; down].

Definition downRecords : list (downstreamChannel string) :=
  [ Down.mk "1" "Locked" "QAM256" 543000000 "-2.3" "39.5" 12 0;
    Down.mk "2" "Locked" "QAM256" 549000000 "-2.1" "39.8" 7 3 ].

Definition upRecords : list (upstreamChannel string) :=
  [ Up.mk "1" "4" "Locked" "SC-QAM Upstream" 22800000 6400000 "42.5" ].

(** A modem that still accepts the token, one that sends the login page
    twice, and one that stops answering after the login page. *)
Definition freshWorld : World := [inr (pageBody statusPage)].

Definition staleWorld : World :=
  [inr (pageBody loginPage); inr (pageBody nil); inr (tokenBody "fresh");
   inr (pageBody loginPage)].

Definition deadWorld : World :=
  [inr (pageBody loginPage); inl (ioError "timeout")].

(** A first run: no token yet, the handshake, then the status page. *)
Definition firstRun : state World :=
  {| fet := setToken modem EmptyString;
     world := [inr (pageBody nil); inr (tokenBody "fresh");
               inr (pageBody statusPage)];
     sent := []; written := EmptyString |}.

End Sample.

(** ** The upstream schema, a fresh fetcher and the earlier fetch *)

Section UpstreamSchema.

Variable float64 : Type.
Variable ParseFloat : string -> float64 * option NumError.

(** An upstream row: seven columns at least, the frequency and the width
    integers and the power a number, each before the first space. *)
Definition upstreamSchema (row : list string) : Prop :=
  exists c0 c1 c2 c3 c4 c5 c6 more,
    row = ([c0; c1; c2; c3; c4; c5; c6] ++ more)%list /\
    int64Text (beforeFirstSpace c4) /\
    int64Text (beforeFirstSpace c5) /\
    floatText ParseFloat (beforeFirstSpace c6).

Definition upstreamRecordOf (row : list string)
    (u : upstreamChannel float64) : Prop :=
  row !! 0%nat = Some (Up.Channel u) /\
  row !! 1%nat = Some (Up.ChannelID u) /\
  row !! 2%nat = Some (Up.LockStatus u) /\
  row !! 3%nat = Some (Up.ChannelType u) /\
  (exists c, row !! 4%nat = Some c /\
             decimalValue (beforeFirstSpace c) = Some (Up.FrequencyHz u)) /\
  (exists c, row !! 5%nat = Some c /\
             decimalValue (beforeFirstSpace c) = Some (Up.WidthHz u)) /\
  (exists c, row !! 6%nat = Some c /\
             ParseFloat (beforeFirstSpace c) = (Up.PowerdBmV u, None)).

End UpstreamSchema.

Arguments upstreamSchema {float64} ParseFloat row.
Arguments upstreamRecordOf {float64} ParseFloat row u.

(** The number of ancestors of the node a pointer designates. *)
Fixpoint depth (p : ptr) : nat :=
  match p with
  | [] => O
  | down :: q => S (depth q)
  | next :: q => depth q
  end.

(** [newFetcher]: the token starts empty; [cookiejar.New(nil)] reports no
    error, and the client it goes into is part of the world. *)
Definition newFetcher (addr username passwd : string) : fetcher * option error :=
  ({| addr := addr; username := username; passwd := passwd;
      token := EmptyString |}, None).

Section EarlierFetcher.

Variable World : Type.
Variable Body : Type.
Variable Do : Request -> World -> (error + Body) * World.
Variable ReadAll : Body -> string * option error.
Variable html_Parse : Body -> Node * option error.
Variable url_Parse : string -> option error.
Variable EncodeToString : string -> string.

(** [client.Do] where no fetcher is kept: the world and the requests sent
    so far. *)
Definition Do_logged (req : Request) (c : World * list Request)
  : (error + Body) * (World * list Request) :=
  let (answer, w) := Do req (fst c) in (answer, (w, (snd c ++ [req])%list)).

(** [fetchPage(ctx, addr, username, passwd)] of the one-shot program, before
    the fetcher kept a token: a client of its own, the handshake, the
    fetch. *)
Definition fetchPage_oneShot (addr username passwd : string)
    (c : World * list Request)
  : (Node * option error) * (World * list Request) :=
  let baseURL := ("https://" +:+ addr) +:+ "/cmconnectionstatus.html" in
  let authURL := (baseURL +:+ "?login_")
                 +:+ EncodeToString ((username +:+ ":") +:+ passwd) in
  match NewRequestWithContext url_Parse "GET" ("https://" +:+ addr) with
  | inl err => ((nil, Some err), c)
  | inr loginPageReq =>
  match Do_logged loginPageReq c with
  | (inl err, c1) => ((nil, Some err), c1)
  | (inr _, c1) =>
  match NewRequestWithContext url_Parse "GET" authURL with
  | inl err => ((nil, Some err), c1)
  | inr authReq =>
  match Do_logged (SetBasicAuth authReq username passwd) c1 with
  | (inl err, c2) => ((nil, Some err), c2)
  | (inr authResp, c2) =>
  match ReadAll authResp with
  | (_, Some err) => ((nil, Some err), c2)
  | (tok, None) =>
  let url := (baseURL +:+ "?ct_") +:+ tok in
  match NewRequestWithContext url_Parse "GET" url with
  | inl err => ((nil, Some err), c2)
  | inr req =>
  match Do_logged req c2 with
  | (inl err, c3) => ((nil, Some err), c3)
  | (inr body, c3) => (html_Parse body, c3)
  end end end end end end end.

End EarlierFetcher.

Arguments Do_logged {World Body} Do req c.
Arguments fetchPage_oneShot {World Body} Do ReadAll html_Parse url_Parse
  EncodeToString addr username passwd c.

(** ** Further sample pages *)

Module Cases.

(** The heading as the only child of a node at the level of the root. *)
Definition shallowPage : Node :=
  Sample.element "p" [] (Sample.text "Downstream Bonded Channels" nil) nil.

(** A downstream row whose corrected counter carries a unit. *)
Definition counterWithUnit : list string :=
  ["1"; "Locked"; "QAM256"; "543000000 Hz"; "-2.3 dBmV"; "39.5 dB";
   "12 errors"; "0"].

(** The status page with an upstream frequency that does not convert. *)
Definition halfPage : Node :=
  Sample.document
    (Sample.table
       (Sample.titleRow "Downstream Bonded Channels"
          (Sample.dataRow Sample.downCells nil))
       (Sample.table
          (Sample.titleRow "Upstream Bonded Channels"
             (Sample.dataRow
                ["1"; "4"; "Locked"; "SC-QAM Upstream"; "n/a"; "6400000 Hz";
                 "42.5 dBmV"] nil)) nil)).

(** The heading of the upstream table of [Sample.statusPage] and the
    header row three levels above it. *)
Definition upTitle : ptr :=
  [down; down; down; down; down; next; down; next; down; down].

Definition upHeaderRow : ptr := [down; down; next; down; next; down; down].

Definition handshakeWorld (page : Node) : Sample.World :=
  [inr (Sample.pageBody nil); inr (Sample.tokenBody "fresh");
   inr (Sample.pageBody page)].

End Cases.

(** * Properties *)

(** ** Pointers and the search *)

Lemma walk_app n r1 r2 : walk n (r1 ++ r2) = walk (walk n r1) r2.
Proof.
  revert n; induction r1 as [|s r1 IH]; intros n; simpl; [done|].
  destruct n as [|ty d a fc ns]; [by destruct r2|].
  destruct s; apply IH.
Qed.

Lemma deref_down page p ty d a fc ns :
  deref page p = node ty d a fc ns -> deref page (down :: p) = fc.
Proof. unfold deref; simpl; intros H; by rewrite walk_app, H. Qed.

Lemma deref_next page p ty d a fc ns :
  deref page p = node ty d a fc ns -> deref page (next :: p) = ns.
Proof. unfold deref; simpl; intros H; by rewrite walk_app, H. Qed.

Lemma preorder_deref page here n :
  deref page here = n ->
  forall p m, (p, m) ∈ preorder here n -> deref page p = m /\ m <> nil.
Proof.
  revert here; induction n as [|ty d a fc IHfc ns IHns]; intros here Hd p m; simpl.
  - intros H; by apply elem_of_nil in H.
  - rewrite elem_of_cons, elem_of_app.
    intros [Heq|[Hin|Hin]].
    + inversion Heq; subst; by split.
    + eapply IHfc; [|exact Hin]. eapply deref_down; eauto.
    + eapply IHns; [|exact Hin]. eapply deref_next; eauto.
Qed.

Lemma find_app_first {A} (f : A -> bool) (l1 l2 : list A) :
  find f (l1 ++ l2) = match find f l1 with Some x => Some x | None => find f l2 end.
Proof. induction l1 as [|x l1 IH]; simpl; [done|]. by destruct (f x). Qed.

Lemma findTextNode_find here n text :
  findTextNode here n text
  = fst <$> find (fun pn => isText text pn.2) (preorder here n).
Proof.
  revert here; induction n as [|ty d a fc IHfc ns IHns]; intros here; simpl; [done|].
  destruct (NodeType_eqb ty TextNode && String.eqb d text); [done|].
  rewrite find_app_first, IHfc, IHns.
  destruct (find _ (preorder (down :: here) fc)); simpl; [done|].
  by destruct (find _ (preorder (next :: here) ns)).
Qed.

Lemma findTextNode_absent page text :
  findTextNode [] page text = None <-> absent text page.
Proof.
  unfold absent. rewrite findTextNode_find. split.
  - intros H p m Hin.
    destruct (find _ _) as [x|] eqn:E; [discriminate|].
    apply list_elem_of_In in Hin.
    exact (find_none _ _ E (p, m) Hin).
  - intros H. destruct (find _ _) as [[p m]|] eqn:E; [|done].
    apply find_some in E as [Hin Hm]. apply list_elem_of_In in Hin.
    simpl in Hm. rewrite (H p m Hin) in Hm. discriminate.
Qed.

Lemma findTextNode_designates page text p :
  findTextNode [] page text = Some p -> isText text (deref page p) = true.
Proof.
  rewrite findTextNode_find.
  destruct (find _ _) as [[q m]|] eqn:E; [|done].
  apply find_some in E as [Hin Hm]. apply list_elem_of_In in Hin.
  destruct (preorder_deref page [] page eq_refl q m Hin) as [Hq _].
  simpl in Hm. intros H. inversion H as [Hp]. simpl in Hp. by rewrite <- Hp, Hq.
Qed.

(** C7: the search returns the first text node equal to the target in
    document order (a node before its children, its children before its
    following siblings); what it returns designates a text node with that
    text; and it returns nothing exactly when no node of the tree is a text
    node with that text. *)
Theorem findTextNode_first_in_document_order (page : Node) (text : string) :
  findTextNode [] page text
  = fst <$> find (fun pn => isText text pn.2) (preorder [] page)
  /\ (forall p, findTextNode [] page text = Some p ->
                isText text (deref page p) = true)
  /\ (findTextNode [] page text = None <->
      forall p m, (p, m) ∈ preorder [] page -> isText text m = false).
Proof.
  split; [apply findTextNode_find|].
  split; [apply findTextNode_designates|apply findTextNode_absent].
Qed.

(** ** The scan of [scrapeTable] *)

Lemma go_bind_Return {A} (m : go A) : (let* x := m in Return x) = m.
Proof. by destruct m. Qed.

Lemma go_bind_assoc {A B C} (m : go A) (f : A -> go B) (g : B -> go C) :
  (let* y := (let* x := m in f x) in g y) = (let* x := m in let* y := f x in g y).
Proof. by destruct m. Qed.

Lemma isDataRow_qualifies ty d a fc ns :
  isDataRow a = qualifies (node ty d a fc ns).
Proof.
  unfold isDataRow, qualifies; simpl.
  destruct a as [|x [|y a]]; simpl; done.
Qed.

Lemma qualifies_spec n :
  qualifies n = true <->
  exists ns, attrs n = [{| Namespace := ns; Key := "align"; Val := "left" |}].
Proof.
  unfold qualifies. destruct (attrs n) as [|[ns k v] [|y a]]; simpl.
  - split; [done|]. by intros [ns H].
  - rewrite andb_true_iff, !String.eqb_eq. split.
    + intros [-> ->]. by exists ns.
    + intros [ns' H]. by inversion H.
  - split; [done|]. by intros [ns' H].
Qed.

Lemma scrapeColumns_cells c vals :
  scrapeColumns c vals
  = (let* xs := go_mapM cellText (List.filter isCell (siblings c)) in
     Return (vals ++ xs)%list).
Proof.
  revert vals; induction c as [|ty d a fc _ ns IH]; intros vals; simpl.
  - by rewrite app_nil_r.
  - unfold isCell at 1; simpl. destruct (String.eqb d "td"); [|apply IH].
    simpl. unfold cellText at 1; simpl.
    destruct fc as [|ty' d' a' fc' ns']; simpl; [done|].
    rewrite IH. destruct (go_mapM _ _); simpl; [|done].
    by rewrite <- app_assoc.
Qed.

Lemma scrapeRows_rows r scraped :
  scrapeRows r scraped
  = (let* xs := go_mapM rowCells (List.filter qualifies (siblings r)) in
     Return (scraped ++ xs)%list).
Proof.
  revert scraped; induction r as [|ty d a fc _ ns IH]; intros scraped; simpl.
  - by rewrite app_nil_r.
  - rewrite <- (isDataRow_qualifies ty d a fc ns).
    destruct (isDataRow a); [|apply IH].
    simpl. rewrite scrapeColumns_cells. unfold rowCells at 1; simpl.
    destruct (go_mapM cellText _); simpl; [|done].
    rewrite IH. destruct (go_mapM rowCells _); simpl; [|done].
    by rewrite <- app_assoc.
Qed.

Lemma scrapeTable_rows r :
  scrapeTable r = go_mapM rowCells (List.filter qualifies (siblings r)).
Proof.
  unfold scrapeTable. rewrite scrapeRows_rows. apply go_bind_Return.
Qed.

Lemma threeUp_spec t r :
  threeUp t = Return r <->
  exists p1 p2, Parent t = Some p1 /\ Parent p1 = Some p2 /\ Parent p2 = r.
Proof.
  unfold threeUp; simpl. split.
  - destruct (Parent t) as [p1|] eqn:E1; simpl; [|done].
    destruct (Parent p1) as [p2|] eqn:E2; simpl; [|done].
    intros H. exists p1, p2. by inversion H.
  - intros (p1 & p2 & -> & H2 & <-). simpl. by rewrite H2.
Qed.

(** ** strings and strconv *)

Lemma Split_first s : Split s space !! 0%nat = Some (beforeFirstSpace s).
Proof.
  induction s as [|c s IH]; simpl; [done|].
  unfold space in *. destruct (Ascii.eqb c " "); [done|].
  destruct (Split s " ") as [|piece pieces]; [done|].
  simpl in *. by inversion IH.
Qed.

Lemma index_Split_first s : index (Split s space) 0 = Return (beforeFirstSpace s).
Proof. unfold index. by rewrite Split_first. Qed.

Lemma digitsValue_ge s : forall acc v, 0 <= acc -> digitsValue s acc = Some v -> acc <= v.
Proof.
  induction s as [|c s IH]; simpl; intros acc v Hacc H.
  - inversion H; lia.
  - destruct ((0 <=? _) && (_ <=? 9)) eqn:E; [|done].
    apply andb_true_iff in E as [E1 E2].
    apply Z.leb_le in E1, E2. apply IH in H; lia.
Qed.

Lemma ParseUint_digits_range s : forall n v,
  ParseUint_digits s n = (v, Some ErrRange) -> v = 2 ^ 64 - 1.
Proof.
  induction s as [|c s IH]; simpl; intros n v H; [done|].
  destruct ((_ <? 0) || (9 <? _)); [done|].
  destruct (_ <=? n); [by inversion H|].
  destruct (_ <? _); [by inversion H|]. eauto.
Qed.

Lemma ParseUint_digits_spec s : forall n v,
  0 <= n <= 2 ^ 64 - 1 ->
  ParseUint_digits s n = (v, None) <->
  digitsValue s n = Some v /\ v <= 2 ^ 64 - 1.
Proof.
  induction s as [|c s IH]; simpl; intros n v Hn.
  - split; [intros H; inversion H; subst; split; [done|lia]|].
    intros [H _]. by inversion H.
  - set (d := Z.of_nat (nat_of_ascii c) - 48).
    destruct (d <? 0) eqn:E1; simpl.
    { apply Z.ltb_lt in E1. replace (0 <=? d) with false by (symmetry; apply Z.leb_gt; lia).
      simpl. split; [done|]. by intros [H _]. }
    apply Z.ltb_ge in E1. replace (0 <=? d) with true by (symmetry; apply Z.leb_le; lia).
    simpl. destruct (9 <? d) eqn:E2.
    { apply Z.ltb_lt in E2. replace (d <=? 9) with false by (symmetry; apply Z.leb_gt; lia).
      split; [done|]. by intros [H _]. }
    apply Z.ltb_ge in E2. replace (d <=? 9) with true by (symmetry; apply Z.leb_le; lia).
    change (2 ^ 64 - 1) with 18446744073709551615 in *.
    change (18446744073709551615 / 10 + 1) with 1844674407370955162.
    destruct (1844674407370955162 <=? n) eqn:E3.
    { apply Z.leb_le in E3. split; [done|]. intros [H Hv].
      apply digitsValue_ge in H; lia. }
    apply Z.leb_gt in E3.
    destruct (18446744073709551615 <? n * 10 + d) eqn:E4.
    { apply Z.ltb_lt in E4. split; [done|]. intros [H Hv].
      apply digitsValue_ge in H; lia. }
    apply Z.ltb_ge in E4. apply IH. lia.
Qed.

Example ParseInt_frequency :
  ParseInt (beforeFirstSpace "543000000 Hz") = (543000000, None).
Proof. reflexivity. Qed.

Example Atoi_with_unit :
  Atoi "12 errors" = (0, Some (syntaxError "Atoi" "12 errors")).
Proof. reflexivity. Qed.

Example FormatInt_frequency : FormatInt 543000000 = "543000000".
Proof. reflexivity. Qed.

Example FormatInt_negative : FormatInt (-42) = "-42".
Proof. reflexivity. Qed.

Lemma ParseUint_spec s v :
  ParseUint s = (v, None) <->
  s <> EmptyString /\ digitsValue s 0 = Some v /\ v <= 2 ^ 64 - 1.
Proof.
  destruct s as [|c s]; [split; [done|by intros [? _]]|].
  unfold ParseUint. rewrite ParseUint_digits_spec by lia. split; [by intros [? ?]|by intros (_ & ? & ?)].
Qed.

Lemma ParseUint_range s v : ParseUint s = (v, Some ErrRange) -> v = 2 ^ 64 - 1.
Proof. destruct s; [done|]. apply ParseUint_digits_range. Qed.

Lemma digitsValue_nonneg s v : digitsValue s 0 = Some v -> 0 <= v.
Proof. apply digitsValue_ge; lia. Qed.

Lemma ParseInt_tail (neg : bool) (digits s : string) (v : Z) :
  match ParseUint digits with
  | (_, Some ErrSyntax) => (0, Some (syntaxError "ParseInt" s))
  | (un, _) =>
      if negb neg && (2 ^ 63 <=? un) then
        (2 ^ 63 - 1, Some (rangeError "ParseInt" s))
      else if neg && (2 ^ 63 <? un) then
        (- 2 ^ 63, Some (rangeError "ParseInt" s))
      else (if neg then - un else un, None)
  end = (v, None) <->
  digits <> EmptyString /\
  exists w, digitsValue digits 0 = Some w /\ v = (if neg then - w else w) /\
            - 2 ^ 63 <= v <= 2 ^ 63 - 1.
Proof.
  change (2 ^ 63) with 9223372036854775808. split.
  - destruct (ParseUint digits) as [un [[]|]] eqn:EU; [done| |].
    + apply ParseUint_range in EU. subst un. by destruct neg.
    + apply ParseUint_spec in EU as (Hne & Hd & Hmax).
      pose proof (digitsValue_nonneg _ _ Hd) as Hpos.
      destruct neg; simpl.
      * destruct (9223372036854775808 <? un) eqn:E; [done|].
        apply Z.ltb_ge in E. intros H; inversion H; subst.
        split; [done|]. exists un. repeat split; [done|lia|lia].
      * destruct (9223372036854775808 <=? un) eqn:E; [done|].
        apply Z.leb_gt in E. intros H; inversion H; subst.
        split; [done|]. exists v. repeat split; [done|lia|lia].
  - intros (Hne & w & Hd & -> & Hb).
    pose proof (digitsValue_nonneg _ _ Hd) as Hpos.
    assert (ParseUint digits = (w, None)) as ->.
    { apply ParseUint_spec. change (2 ^ 64 - 1) with 18446744073709551615.
      repeat split; [done|done|]. destruct neg; lia. }
    destruct neg; simpl.
    + replace (9223372036854775808 <? w) with false; [done|].
      symmetry; apply Z.ltb_ge; lia.
    + replace (9223372036854775808 <=? w) with false; [done|].
      symmetry; apply Z.leb_gt; lia.
Qed.

(** [ParseInt] succeeds exactly on the texts that denote an integer of 64
    bits, with that integer. *)
Lemma ParseInt_spec s v :
  ParseInt s = (v, None) <->
  decimalValue s = Some v /\ - 2 ^ 63 <= v <= 2 ^ 63 - 1.
Proof.
  destruct s as [|c s']; [simpl; split; [done|by intros [? _]]|].
  unfold ParseInt, decimalValue.
  destruct (Ascii.eqb_spec c "-") as [->|Hm].
  - change (Ascii.eqb "-" "+" || true) with true. cbv iota.
    rewrite ParseInt_tail. split.
    + intros (Hne & w & Hd & -> & Hb). destruct s'; [done|].
      by rewrite Hd.
    + intros [H Hb]. destruct s' as [|a s']; [done|].
      split; [done|]. destruct (digitsValue _ 0) as [w|]; [|done].
      exists w. simpl in H. inversion H; subst. repeat split; [lia|lia].
  - destruct (Ascii.eqb_spec c "+") as [->|Hp].
    + simpl (true || false). cbv iota. rewrite ParseInt_tail. split.
      * intros (Hne & w & Hd & -> & Hb). by destruct s'.
      * intros [H Hb]. destruct s' as [|a s']; [done|].
        split; [done|]. by exists v.
    + simpl (false || false). cbv iota. rewrite ParseInt_tail. split.
      * by intros (Hne & w & Hd & -> & Hb).
      * intros [H Hb]. split; [done|]. by exists v.
Qed.

Lemma Atoi_ParseInt s v : Atoi s = (v, None) <-> ParseInt s = (v, None).
Proof.
  unfold Atoi. destruct (ParseInt s) as [i [[]|]]; split; done.
Qed.

Lemma digitsValue_no_space s : forall acc v,
  digitsValue s acc = Some v -> beforeFirstSpace s = s.
Proof.
  induction s as [|c s IH]; simpl; intros acc v H; [done|].
  destruct (Ascii.eqb_spec c " ") as [->|Hc]; [done|].
  destruct (_ && _); [|done]. f_equal. eauto.
Qed.

Lemma decimalValue_no_space s v :
  decimalValue s = Some v -> beforeFirstSpace s = s.
Proof.
  destruct s as [|c s]; [done|]. unfold decimalValue.
  destruct (Ascii.eqb_spec c "-") as [->|Hm].
  { destruct s as [|a s]; [done|]. intros H.
    destruct (digitsValue (String a s) 0) as [w|] eqn:E; [|done].
    apply digitsValue_no_space in E. simpl in *. by rewrite E. }
  destruct (Ascii.eqb_spec c "+") as [->|Hp].
  { destruct s as [|a s]; [done|]. intros E.
    apply digitsValue_no_space in E. simpl in *. by rewrite E. }
  apply digitsValue_no_space.
Qed.

(** The errors of the integer conversions are [*NumError]s. *)
Lemma ParseInt_error s v e : ParseInt s = (v, Some e) -> exists n, e = numError n.
Proof.
  unfold ParseInt, syntaxError, rangeError. destruct s as [|c s]; [intros H; inversion H; eauto|].
  destruct (ParseUint _) as [un [[]|]];
    repeat (match goal with |- context [if ?b then _ else _] => destruct b end);
    intros H; inversion H; eauto.
Qed.

Lemma Atoi_error s v e : Atoi s = (v, Some e) -> exists n, e = numError n.
Proof.
  unfold Atoi. destruct (ParseInt s) as [i [err|]] eqn:E; [|done].
  apply ParseInt_error in E as [n ->]. intros H; inversion H; eauto.
Qed.

(** ** Printing integers *)

Lemma digitChar_value d :
  0 <= d <= 9 -> Z.of_nat (nat_of_ascii (digitChar d)) - 48 = d.
Proof.
  intros Hd. unfold digitChar. rewrite nat_ascii_embedding; lia.
Qed.

Lemma digitsValue_digit d s a :
  0 <= d <= 9 ->
  digitsValue (String (digitChar d) s) a = digitsValue s (a * 10 + d).
Proof.
  intros Hd. cbn [digitsValue]. rewrite (digitChar_value d Hd).
  replace (0 <=? d) with true by (symmetry; apply Z.leb_le; lia).
  by replace (d <=? 9) with true by (symmetry; apply Z.leb_le; lia).
Qed.

Lemma digitsOf_value fuel : forall n,
  0 <= n < 2 ^ Z.of_nat fuel ->
  exists k, 0 <= k /\ forall acc a,
    digitsValue (digitsOf fuel n acc) a = digitsValue acc (a * 10 ^ k + n).
Proof.
  induction fuel as [|fuel IH]; intros n Hn.
  - exists 0. split; [lia|]. intros acc a. simpl in *.
    f_equal. lia.
  - rewrite Nat2Z.inj_succ, Z.pow_succ_r in Hn by lia.
    assert (0 <= n mod 10 <= 9) as Hd by (pose proof (Z.mod_pos_bound n 10); lia).
    cbn [digitsOf]. destruct (n <? 10) eqn:E.
    + apply Z.ltb_lt in E. exists 1. split; [lia|]. intros acc a.
      rewrite digitsValue_digit by done. f_equal.
      rewrite Z.mod_small by lia. lia.
    + apply Z.ltb_ge in E.
      destruct (IH (n / 10)) as (k & Hk & Hval).
      { split; [apply Z.div_pos; lia|].
        apply Z.div_lt_upper_bound; lia. }
      exists (Z.succ k). split; [lia|]. intros acc a.
      rewrite Hval, digitsValue_digit by done. f_equal.
      rewrite Z.pow_succ_r by done.
      pose proof (Z.div_mod n 10). lia.
Qed.

Lemma digitsOf_nonempty fuel : forall n c acc,
  exists c' s', digitsOf fuel n (String c acc) = String c' s'.
Proof.
  induction fuel as [|fuel IH]; intros n c acc; cbn [digitsOf]; [eauto|].
  destruct (n <? 10); [eauto|]. apply IH.
Qed.

Lemma digitsValue_first_is_no_sign c s a v :
  digitsValue (String c s) a = Some v ->
  Ascii.eqb c "-" = false /\ Ascii.eqb c "+" = false.
Proof.
  cbn [digitsValue].
  destruct (Ascii.eqb_spec c "-") as [->|_]; [done|].
  destruct (Ascii.eqb_spec c "+") as [->|_]; done.
Qed.

Lemma digitsOf_abs_value n :
  digitsValue
    (digitsOf (S (Z.to_nat (Z.log2 (Z.abs n)))) (Z.abs n) EmptyString) 0
  = Some (Z.abs n).
Proof.
  destruct (digitsOf_value (S (Z.to_nat (Z.log2 (Z.abs n)))) (Z.abs n))
    as (k & _ & Hval).
  - rewrite Nat2Z.inj_succ, Z2Nat.id by apply Z.log2_nonneg.
    destruct (Z.eq_dec (Z.abs n) 0) as [->|Hne]; [done|].
    pose proof (Z.log2_spec (Z.abs n)). lia.
  - rewrite Hval. simpl. f_equal.
Qed.

(** What [FormatInt] prints denotes the integer it printed, and [ParseInt]
    reads it back. *)
Lemma decimalValue_FormatInt n : decimalValue (FormatInt n) = Some n.
Proof.
  pose proof (digitsOf_abs_value n) as Hbody. unfold FormatInt.
  destruct (n <? 0) eqn:E.
  - apply Z.ltb_lt in E. cbn [decimalValue]. cbn [digitsOf] in *.
    set (acc := String (digitChar (Z.abs n mod 10)) EmptyString) in *.
    assert (exists c' s',
              (if Z.abs n <? 10 then acc
               else digitsOf (Z.to_nat (Z.log2 (Z.abs n))) (Z.abs n / 10) acc)
              = String c' s') as (c' & s' & Hs).
    { destruct (Z.abs n <? 10); [by eexists _, _|apply digitsOf_nonempty]. }
    rewrite Hs in *. rewrite Hbody. simpl. f_equal. lia.
  - apply Z.ltb_ge in E. rewrite Z.abs_eq in * by done.
    destruct (digitsOf _ n EmptyString) as [|c s] eqn:Es.
    { simpl in Hbody. inversion Hbody as [H0]. subst n.
      by vm_compute in Es. }
    destruct (digitsValue_first_is_no_sign _ _ _ _ Hbody) as [Hm Hp].
    unfold decimalValue. by rewrite Hm, Hp.
Qed.

Lemma ParseInt_FormatInt n :
  - 2 ^ 63 <= n <= 2 ^ 63 - 1 -> ParseInt (FormatInt n) = (n, None).
Proof.
  intros Hn. apply ParseInt_spec. split; [apply decimalValue_FormatInt|done].
Qed.

(** ** The record parser *)

Section ParserProperties.

Context {float64 : Type} (ParseFloat : string -> float64 * option NumError).

Lemma int64Text_ParseInt s :
  int64Text s -> exists v, ParseInt s = (v, None) /\ decimalValue s = Some v.
Proof. intros (v & Hv & Hb). exists v. split; [by apply ParseInt_spec|done]. Qed.

Lemma int64Text_Atoi s :
  int64Text s ->
  exists v, Atoi s = (v, None) /\ decimalValue (beforeFirstSpace s) = Some v.
Proof.
  intros (v & Hv & Hb). exists v. split.
  - by apply Atoi_ParseInt, ParseInt_spec.
  - by rewrite (decimalValue_no_space _ _ Hv).
Qed.

Lemma downstreamRow_schema row :
  downstreamSchema ParseFloat row ->
  exists d, downstreamRow ParseFloat row = Return (inr d)
            /\ downstreamRecordOf ParseFloat row d.
Proof.
  intros (c0 & c1 & c2 & c3 & c4 & c5 & c6 & c7 & more & -> & H3 & H4 & H5 & H6 & H7).
  apply int64Text_ParseInt in H3 as (v3 & P3 & D3).
  destruct H4 as [v4 P4]. destruct H5 as [v5 P5].
  apply int64Text_Atoi in H6 as (v6 & P6 & D6).
  apply int64Text_Atoi in H7 as (v7 & P7 & D7).
  exists (Down.mk c0 c1 c2 v3 v4 v5 v6 v7). split.
  - unfold downstreamRow. cbn [app index lookup list_lookup go_bind length].
    rewrite !index_Split_first. cbn [go_bind].
    by rewrite P3, P4, P5, P6, P7.
  - unfold downstreamRecordOf; simpl. repeat split; eauto.
Qed.

Lemma parseDownstreamRows_schema rows :
  Forall (downstreamSchema ParseFloat) rows ->
  forall data, exists recs,
    parseDownstreamRows ParseFloat rows data = Return ((data ++ recs)%list, None)
    /\ Forall2 (downstreamRecordOf ParseFloat) rows recs.
Proof.
  induction 1 as [|row rows Hrow _ IH]; intros data; simpl.
  - exists []. by rewrite app_nil_r.
  - destruct (downstreamRow_schema row Hrow) as (d & -> & Hd). simpl.
    destruct (IH (data ++ [d])%list) as (recs & -> & Hrecs).
    exists (d :: recs). split; [by rewrite <- app_assoc|by constructor].
Qed.

(** A row that fails to convert ends the loop with its error and without
    records, whatever was read before. *)
Lemma parseDownstreamRows_first_failure before row after err :
  Forall (downstreamSchema ParseFloat) before ->
  downstreamRow ParseFloat row = Return (inl err) ->
  forall data,
    parseDownstreamRows ParseFloat (before ++ row :: after)%list data
    = Return ([], Some err).
Proof.
  intros Hb Hrow. induction Hb as [|r before Hr _ IH]; intros data; simpl.
  - by rewrite Hrow.
  - destruct (downstreamRow_schema r Hr) as (d & -> & _). simpl. apply IH.
Qed.

Lemma go_mapM_length {A B} (f : A -> go B) l ys :
  go_mapM f l = Return ys -> length ys = length l.
Proof.
  revert ys; induction l as [|x l IH]; simpl; intros ys H.
  - by inversion H.
  - destruct (f x); simpl in H; [|done].
    destruct (go_mapM f l) as [zs|]; simpl in H; [|done].
    inversion H; subst; simpl. f_equal. by apply IH.
Qed.

Ltac split_row_steps :=
  repeat match goal with
         | |- context [index ?l ?i] => destruct (index l i); cbn [go_bind]; [|done]
         | |- context [ParseInt ?s] =>
             let E := fresh "E" in destruct (ParseInt s) as [? [?|]] eqn:E
         | |- context [Atoi ?s] =>
             let E := fresh "E" in destruct (Atoi s) as [? [?|]] eqn:E
         | |- context [ParseFloat ?s] =>
             let E := fresh "E" in destruct (ParseFloat s) as [? [?|]] eqn:E
         end.

Ltac close_row_error :=
  intros H; inversion H; subst;
  match goal with
  | E : ParseInt _ = (_, Some _) |- _ => exact (ParseInt_error _ _ _ E)
  | E : Atoi _ = (_, Some _) |- _ => exact (Atoi_error _ _ _ E)
  | _ => eauto
  end.

Lemma downstreamRow_error row err :
  downstreamRow ParseFloat row = Return (inl err) -> exists n, err = numError n.
Proof. unfold downstreamRow. split_row_steps; try done; close_row_error. Qed.

Lemma upstreamRow_error row err :
  upstreamRow ParseFloat row = Return (inl err) -> exists n, err = numError n.
Proof. unfold upstreamRow. split_row_steps; try done; close_row_error. Qed.

Lemma parseDownstreamRows_error rows : forall data l err,
  parseDownstreamRows ParseFloat rows data = Return (l, Some err) ->
  l = [] /\ exists n, err = numError n.
Proof.
  induction rows as [|row rows IH]; simpl; intros data l err H; [done|].
  destruct (downstreamRow ParseFloat row) as [[e|d]|] eqn:E; simpl in H; [| |done].
  - inversion H; subst. split; [done|]. by eapply downstreamRow_error.
  - by eapply IH.
Qed.

Lemma parseUpstreamRows_error rows : forall data l err,
  parseUpstreamRows ParseFloat rows data = Return (l, Some err) ->
  l = [] /\ exists n, err = numError n.
Proof.
  induction rows as [|row rows IH]; simpl; intros data l err H; [done|].
  destruct (upstreamRow ParseFloat row) as [[e|u]|] eqn:E; simpl in H; [| |done].
  - inversion H; subst. split; [done|]. by eapply upstreamRow_error.
  - by eapply IH.
Qed.


(** C1 (amended): from the heading text node the parser ascends exactly
    three parent links, and scans the node it reaches and the siblings that
    follow it, in document order; a scanned node is a data row exactly when
    it has one attribute, named align, with value left. *)
Theorem scan_starts_three_levels_up_and_follows_the_siblings
    (page : Node) (tableTitle p1 p2 : ptr) (rowPtr : option ptr) :
  Parent tableTitle = Some p1 -> Parent p1 = Some p2 -> Parent p2 = rowPtr ->
  let scanned := List.filter qualifies (siblings (target page rowPtr)) in
  (forall n, qualifies n = true <->
     exists ns, attrs n = [{| Namespace := ns; Key := "align"; Val := "left" |}])
  /\ (findTextNode [] page "Downstream Bonded Channels" = Some tableTitle ->
      parseDownstream ParseFloat page
      = (let* rows := go_mapM rowCells scanned in
         parseDownstreamRows ParseFloat rows []))
  /\ (findTextNode [] page "Upstream Bonded Channels" = Some tableTitle ->
      parseUpstream ParseFloat page
      = (let* rows := go_mapM rowCells scanned in
         parseUpstreamRows ParseFloat rows [])).
Proof.
  intros H1 H2 H3 scanned.
  assert (threeUp tableTitle = Return rowPtr) as Hup.
  { apply threeUp_spec. by exists p1, p2. }
  split; [apply qualifies_spec|].
  split; intros Hfind.
  - unfold parseDownstream. rewrite Hfind, Hup. cbn [go_bind].
    by rewrite scrapeTable_rows.
  - unfold parseUpstream. rewrite Hfind, Hup. cbn [go_bind].
    by rewrite scrapeTable_rows.
Qed.

(** C3: on a page whose downstream heading is found three levels below the
    scanned row and whose data rows match the column schema,
    [parseDownstream] returns one record per data row, in document order,
    and the numbers of each record are those that stand before the first
    space of columns 3 to 7. *)
Theorem parseDownstream_one_record_per_data_row
    (page : Node) (tableTitle : ptr) (rowPtr : option ptr)
    (rows : list (list string)) :
  findTextNode [] page "Downstream Bonded Channels" = Some tableTitle ->
  threeUp tableTitle = Return rowPtr ->
  go_mapM rowCells (List.filter qualifies (siblings (target page rowPtr)))
  = Return rows ->
  Forall (downstreamSchema ParseFloat) rows ->
  exists recs,
    parseDownstream ParseFloat page = Return (recs, None)
    /\ length recs
       = length (List.filter qualifies (siblings (target page rowPtr)))
    /\ Forall2 (downstreamRecordOf ParseFloat) rows recs.
Proof.
  intros Hfind Hup Hrows Hschema.
  destruct (parseDownstreamRows_schema rows Hschema []) as (recs & Hrecs & Hall).
  exists recs. split; [|split; [|done]].
  - unfold parseDownstream. rewrite Hfind, Hup. cbn [go_bind].
    by rewrite scrapeTable_rows, Hrows.
  - apply Forall2_length in Hall. apply go_mapM_length in Hrows. lia.
Qed.

(** C5: each parser returns its not-found error exactly when no node of
    the page is a text node with its heading, whatever else the page
    holds. *)
Theorem heading_absent_iff_not_found (page : Node) :
  (absent "Downstream Bonded Channels" page ->
   parseDownstream ParseFloat page
   = Return ([], Some (errorString
                         "unable to find downstream bonded channels table")))
  /\ (forall l msg,
        parseDownstream ParseFloat page = Return (l, Some (errorString msg)) ->
        absent "Downstream Bonded Channels" page)
  /\ (absent "Upstream Bonded Channels" page ->
      parseUpstream ParseFloat page
      = Return ([], Some (errorString
                            "unable to find upstream bonded channels table")))
  /\ (forall l msg,
        parseUpstream ParseFloat page = Return (l, Some (errorString msg)) ->
        absent "Upstream Bonded Channels" page).
Proof.
  repeat split.
  - intros H. apply findTextNode_absent in H. unfold parseDownstream. by rewrite H.
  - intros l msg H. apply findTextNode_absent. unfold parseDownstream in H.
    destruct (findTextNode _ _ _) as [t|]; [|done].
    destruct (threeUp t) as [r|]; [|done]. cbn [go_bind] in H.
    destruct (scrapeTable _) as [rows|]; [|done]. cbn [go_bind] in H.
    apply parseDownstreamRows_error in H as [_ [n Hn]]. done.
  - intros H. apply findTextNode_absent in H. unfold parseUpstream. by rewrite H.
  - intros l msg H. apply findTextNode_absent. unfold parseUpstream in H.
    destruct (findTextNode _ _ _) as [t|]; [|done].
    destruct (threeUp t) as [r|]; [|done]. cbn [go_bind] in H.
    destruct (scrapeTable _) as [rows|]; [|done]. cbn [go_bind] in H.
    apply parseUpstreamRows_error in H as [_ [n Hn]]. done.
Qed.

(** Where every data row before it matches the schema, the first row that
    fails to convert decides the result: its conversion error, and no
    record. *)
Lemma unconvertible_cell_fails_the_parse
    (page : Node) (tableTitle : ptr) (rowPtr : option ptr)
    (before after : list (list string)) (row : list string) (err : error) :
  findTextNode [] page "Downstream Bonded Channels" = Some tableTitle ->
  threeUp tableTitle = Return rowPtr ->
  go_mapM rowCells (List.filter qualifies (siblings (target page rowPtr)))
  = Return (before ++ row :: after)%list ->
  Forall (downstreamSchema ParseFloat) before ->
  downstreamRow ParseFloat row = Return (inl err) ->
  parseDownstream ParseFloat page = Return ([], Some err).
Proof.
  intros Hfind Hup Hrows Hbefore Hrow.
  unfold parseDownstream. rewrite Hfind, Hup. cbn [go_bind].
  rewrite scrapeTable_rows, Hrows. cbn [go_bind].
  by apply parseDownstreamRows_first_failure.
Qed.

(** The loop body reads columns 0 to 7: with eight columns it returns,
    with fewer than four it panics on the first column it reads. *)
Lemma downstreamRow_returns_on_eight_columns row :
  (8 <= length row)%nat -> exists r, downstreamRow ParseFloat row = Return r.
Proof.
  destruct row as [|c0 [|c1 [|c2 [|c3 [|c4 [|c5 [|c6 [|c7 more]]]]]]]];
    simpl; try lia; intros _.
  unfold downstreamRow. cbn [index lookup list_lookup go_bind].
  rewrite !index_Split_first. cbn [go_bind].
  destruct (ParseInt _) as [? [?|]]; [eauto|].
  destruct (ParseFloat (beforeFirstSpace c4)) as [? [?|]]; [eauto|].
  destruct (ParseFloat (beforeFirstSpace c5)) as [? [?|]]; [eauto|].
  destruct (Atoi c6) as [? [?|]]; [eauto|].
  destruct (Atoi c7) as [? [?|]]; eauto.
Qed.

Lemma downstreamRow_panics_below_four_columns row :
  (length row <= 3)%nat ->
  downstreamRow ParseFloat row = Panics (IndexOutOfRange 3 (length row)).
Proof.
  destruct row as [|c0 [|c1 [|c2 [|c3 more]]]]; simpl; try lia; done.
Qed.

(** C9: a data row of three cells makes [parseDownstream] panic on its
    fourth column instead of returning an error. *)
Theorem short_row_panics :
  parseDownstream ParseFloat Sample.shortRowPage = Panics (IndexOutOfRange 3 3).
Proof. reflexivity. Qed.

(** C4: the frequency of the row does not convert, yet the parse panics on
    the empty cell that follows instead of returning the conversion
    error. *)
Theorem unconvertible_row_with_empty_cell_panics :
  scrapeTable Sample.badFrequencyRow = Panics NilDereference
  /\ parseDownstream ParseFloat Sample.badFrequencyPage = Panics NilDereference
  /\ ParseInt (beforeFirstSpace "abc Hz")
     = (0, Some (syntaxError "ParseInt" "abc")).
Proof. repeat split. Qed.

(** C10: an empty table-data cell, and a text node whose text is td, both
    make [scrapeTable] dereference a missing first child, and the parse of
    a page with such a row panics. *)
Theorem empty_cell_panics :
  scrapeTable Sample.emptyCellRow = Panics NilDereference
  /\ scrapeTable Sample.tdTextRow = Panics NilDereference
  /\ parseDownstream ParseFloat Sample.emptyCellPage = Panics NilDereference.
Proof. repeat split. Qed.

End ParserProperties.

(** ** The writer *)

Lemma append_empty_r (s : string) : s +:+ EmptyString = s.
Proof.
  induction s as [|c s IH]; [done|].
  change (String c (s +:+ EmptyString) = String c s). by f_equal.
Qed.

Lemma append_assoc3 (a b c : string) : (a +:+ b) +:+ c = a +:+ (b +:+ c).
Proof.
  induction a as [|x a IH]; [done|].
  change (String x ((a +:+ b) +:+ c) = String x (a +:+ (b +:+ c))). by f_equal.
Qed.

Section FetcherProperties.

Context {float64 : Type} (ParseFloat : string -> float64 * option NumError).
Context (FormatFloat : float64 -> string) (Quote : string -> string).
Context {World Body : Type} (Do : Request -> World -> (error + Body) * World).
Context (ReadAll : Body -> string * option error).
Context (html_Parse : Body -> Node * option error).
Context (url_Parse : string -> option error).
Context (EncodeToString : string -> string).

Local Abbreviation fetchPageInner' :=
  (fetchPageInner Do html_Parse url_Parse).
Local Abbreviation authenticate' :=
  (authenticate Do ReadAll html_Parse url_Parse EncodeToString).
Local Abbreviation fetchPage' :=
  (fetchPage Do ReadAll html_Parse url_Parse EncodeToString).
Local Abbreviation writePage' :=
  (writePage ParseFloat FormatFloat Quote).
Local Abbreviation writeMetrics' :=
  (writeMetrics ParseFloat FormatFloat Quote Do ReadAll
     html_Parse url_Parse EncodeToString).
Local Abbreviation writeDownstream' :=
  (writeDownstream FormatFloat Quote).
Local Abbreviation writeUpstream' :=
  (writeUpstream FormatFloat Quote).
Local Abbreviation downstreamLines' := (downstreamLines FormatFloat Quote).
Local Abbreviation upstreamLines' := (upstreamLines FormatFloat Quote).
Local Abbreviation metricLines' := (metricLines FormatFloat Quote).

Lemma Write_Write (s : state World) a b :
  Write (Write s a) b = Write s (a +:+ b).
Proof. unfold Write; cbn [fet world sent written]. by rewrite append_assoc3. Qed.

Lemma Write_empty (s : state World) : Write s EmptyString = s.
Proof. destruct s. unfold Write; cbn [fet world sent written]. by rewrite append_empty_r. Qed.

Lemma writeDownstream_lines (s : state World) d :
  writeDownstream' s d = Write s (concatLines (downstreamLines' d)).
Proof.
  unfold writeDownstream, Fprintf. rewrite !Write_Write.
  unfold concatLines, downstreamLines. cbn [fold_right].
  rewrite append_empty_r. reflexivity.
Qed.

Lemma writeUpstream_lines (s : state World) u :
  writeUpstream' s u = Write s (concatLines (upstreamLines' u)).
Proof.
  unfold writeUpstream, Fprintf. rewrite !Write_Write.
  unfold concatLines, upstreamLines. cbn [fold_right].
  rewrite append_empty_r. reflexivity.
Qed.

Lemma concatLines_app l1 l2 :
  concatLines (l1 ++ l2) = concatLines l1 +:+ concatLines l2.
Proof.
  induction l1 as [|x l1 IH]; simpl; [done|].
  unfold concatLines in *; simpl. by rewrite IH, append_assoc3.
Qed.

Lemma fold_writeDownstream ds : forall s : state World,
  fold_left writeDownstream' ds s
  = Write s (concatLines (flat_map downstreamLines' ds)).
Proof.
  induction ds as [|d ds IH]; intros s.
  - simpl. by rewrite Write_empty.
  - cbn [fold_left flat_map]. rewrite IH, writeDownstream_lines, Write_Write.
    by rewrite concatLines_app.
Qed.

Lemma fold_writeUpstream us : forall s : state World,
  fold_left writeUpstream' us s
  = Write s (concatLines (flat_map upstreamLines' us)).
Proof.
  induction us as [|u us IH]; intros s.
  - simpl. by rewrite Write_empty.
  - cbn [fold_left flat_map]. rewrite IH, writeUpstream_lines, Write_Write.
    by rewrite concatLines_app.
Qed.

Lemma flat_map_length_const {A B} (f : A -> list B) (k : nat) (l : list A) :
  (forall x, length (f x) = k) -> length (flat_map f l) = (k * length l)%nat.
Proof.
  intros Hf. induction l as [|x l IH]; simpl; [lia|].
  rewrite length_app, Hf, IH. lia.
Qed.

Lemma writePage_lines page (s1 : state World) ds us :
  findTextNode [] page "Login" = None ->
  parseDownstream ParseFloat page = Return (ds, None) ->
  parseUpstream ParseFloat page = Return (us, None) ->
  writePage' page s1
  = (Return None, Write s1 (concatLines (metricLines' ds us))).
Proof.
  intros HL Hd Hu. unfold writePage. rewrite HL, Hd, Hu.
  rewrite fold_writeDownstream, fold_writeUpstream, Write_Write.
  unfold metricLines. by rewrite concatLines_app.
Qed.

(** C6: when both tables parse, [writeMetrics] appends to the writer the
    five lines of each downstream record, in the order frequency, power,
    ratio, corrected, uncorrectables, record after record, then the three
    lines of each upstream record; the label value is quoted, the number is
    printed as it is. *)
Theorem writeMetrics_emits_the_lines_in_order
    (s s1 : state World) (page : Node)
    (ds : list (downstreamChannel float64))
    (us : list (upstreamChannel float64)) :
  fetchPage' s = ((page, None), s1) ->
  findTextNode [] page "Login" = None ->
  parseDownstream ParseFloat page = Return (ds, None) ->
  parseUpstream ParseFloat page = Return (us, None) ->
  writeMetrics' s
  = (Return None,
     Write s1
       (concatLines (flat_map downstreamLines' ds ++ flat_map upstreamLines' us)))
  /\ length (flat_map downstreamLines' ds ++ flat_map upstreamLines' us)
     = (5 * length ds + 3 * length us)%nat.
Proof.
  intros Hf HL Hd Hu. split.
  - unfold writeMetrics. rewrite Hf. by apply writePage_lines.
  - rewrite length_app.
    rewrite (flat_map_length_const downstreamLines' 5) by done.
    by rewrite (flat_map_length_const upstreamLines' 3).
Qed.

Lemma client_Do_written req (s : state World) :
  written (client_Do Do req s).2 = written s.
Proof. unfold client_Do. by destruct (Do req (world s)). Qed.

Lemma fetchPageInner_written (s : state World) :
  written (fetchPageInner' s).2 = written s.
Proof.
  unfold fetchPageInner. destruct (NewRequestWithContext _ _ _); [done|].
  pose proof (client_Do_written r s) as H.
  by destruct (client_Do _ _ _) as [[?|?] ?].
Qed.

Lemma authenticate_written (s : state World) :
  written (authenticate' s).2 = written s.
Proof.
  unfold authenticate.
  destruct (NewRequestWithContext _ _ _) as [?|r1]; [done|].
  pose proof (client_Do_written r1 s) as H1.
  destruct (client_Do _ r1 s) as [[?|?] s1]; [done|].
  destruct (NewRequestWithContext _ _ _) as [?|r2]; [done|].
  pose proof (client_Do_written (SetBasicAuth r2 (username (fet s)) (passwd (fet s))) s1) as H2.
  destruct (client_Do _ _ s1) as [[?|authResp] s2]; [simpl in *; congruence|].
  destruct (ReadAll authResp) as [tok [?|]]; [simpl in *; congruence|].
  rewrite fetchPageInner_written. simpl in *; congruence.
Qed.

Lemma fetchPage_written (s : state World) :
  written (fetchPage' s).2 = written s.
Proof.
  unfold fetchPage. destruct (String.eqb _ _); [apply authenticate_written|].
  pose proof (fetchPageInner_written s) as H.
  destruct (fetchPageInner' s) as [[page [?|]] s1]; [done|].
  destruct (findTextNode _ _ _); [|done].
  rewrite authenticate_written. done.
Qed.

Lemma writePage_pure page (s1 s2 : state World) :
  written s1 = written s2 ->
  (writePage' page s1).1 = (writePage' page s2).1
  /\ written (writePage' page s1).2 = written (writePage' page s2).2.
Proof.
  intros H. unfold writePage.
  destruct (findTextNode _ _ _); [done|].
  destruct (parseDownstream _ _) as [[ds [?|]]|]; [done| |done].
  rewrite !fold_writeDownstream.
  destruct (parseUpstream _ _) as [[us [?|]]|]; simpl; rewrite ?fold_writeUpstream;
    unfold Write; simpl; by rewrite H.
Qed.

(** C8: two runs that fetch the same page and start from the same writer
    contents return the same result and leave the same bytes written,
    whatever the session and the modem went through. *)
Theorem output_is_a_function_of_the_page
    (s s' s1 s1' : state World) (page : Node) :
  fetchPage' s = ((page, None), s1) ->
  fetchPage' s' = ((page, None), s1') ->
  written s = written s' ->
  (writeMetrics' s).1 = (writeMetrics' s').1
  /\ written (writeMetrics' s).2 = written (writeMetrics' s').2.
Proof.
  intros Hf Hf' Hw. unfold writeMetrics. rewrite Hf, Hf'.
  apply writePage_pure.
  pose proof (fetchPage_written s) as H. rewrite Hf in H.
  pose proof (fetchPage_written s') as H'. rewrite Hf' in H'.
  simpl in *. congruence.
Qed.

Lemma fetchPageInner_answered (s : state World) answer w :
  url_Parse (URL (pageRequest (fet s) (token (fet s)))) = None ->
  Do (pageRequest (fet s) (token (fet s))) (world s) = (answer, w) ->
  fetchPageInner' s
  = (match answer with
     | inl err => (nil, Some err)
     | inr body => html_Parse body
     end,
     {| fet := fet s; world := w;
        sent := sent s ++ [pageRequest (fet s) (token (fet s))];
        written := written s |}).
Proof.
  intros Hu Hd. unfold fetchPageInner, NewRequestWithContext, client_Do.
  unfold pageRequest in *. cbn [URL] in Hu. rewrite Hu, Hd. by destruct answer.
Qed.

Lemma authenticate_answered (s : state World) body2 w2 body3 w3 tok answer w4 :
  let f := fet s in
  url_Parse (URL (loginPageRequest f)) = None ->
  Do (loginPageRequest f) (world s) = (inr body2, w2) ->
  url_Parse (URL (authRequest EncodeToString f)) = None ->
  Do (authRequest EncodeToString f) w2 = (inr body3, w3) ->
  ReadAll body3 = (tok, None) ->
  url_Parse (URL (pageRequest f tok)) = None ->
  Do (pageRequest f tok) w3 = (answer, w4) ->
  authenticate' s
  = (match answer with
     | inl err => (nil, Some err)
     | inr body => html_Parse body
     end,
     {| fet := setToken f tok; world := w4;
        sent := sent s ++ [loginPageRequest f; authRequest EncodeToString f;
                           pageRequest f tok];
        written := written s |}).
Proof.
  intros f Hu2 Hd2 Hu3 Hd3 Hr Hu4 Hd4.
  unfold authenticate, NewRequestWithContext, client_Do.
  unfold loginPageRequest, authRequest in *. cbn [URL] in Hu2, Hu3.
  fold f. rewrite Hu2. cbn [world]. rewrite Hd2, Hu3.
  unfold SetBasicAuth. cbn [Method URL world]. rewrite Hd3, Hr.
  rewrite (fetchPageInner_answered _ answer w4); [|done|done].
  cbn [fet world sent written withFetcher setToken addr username passwd token].
  by rewrite <- !app_assoc.
Qed.

(** Whatever the modem answers, one fetch sends a beginning of
    [fetchRequests] and nothing else: at most one handshake and at most
    one fetch after it. *)
Lemma fetchPage_sends_a_prefix (s : state World) :
  exists tok reqs more,
    sent (fetchPage' s).2 = (sent s ++ reqs)%list
    /\ (reqs ++ more)%list = fetchRequests EncodeToString (fet s) tok.
Proof.
  unfold fetchPage, authenticate, fetchPageInner, NewRequestWithContext,
    client_Do, fetchRequests, pageRequest, loginPageRequest, authRequest,
    SetBasicAuth.
  destruct (String.eqb (token (fet s)) EmptyString);
    repeat (cbn [fet world sent written withFetcher setToken addr username
                 passwd token fst snd Method URL];
            match goal with
            | |- context [match url_Parse ?u with _ => _ end] =>
                destruct (url_Parse u)
            | |- context [let (_, _) := Do ?r ?w in _] =>
                destruct (Do r w) as [[?|?] ?]
            | |- context [match ReadAll ?b with _ => _ end] =>
                destruct (ReadAll b) as [? [?|]]
            | |- context [match html_Parse ?b with _ => _ end] =>
                destruct (html_Parse b) as [? [?|]]
            | |- context [match findTextNode [] ?n ?x with _ => _ end] =>
                destruct (findTextNode [] n x)
            end);
    cbn [fet world sent written withFetcher setToken addr username
         passwd token fst snd Method URL app];
    rewrite <- ?app_assoc; cbn [app];
    first
      [ by eexists _, [], _; split; [by rewrite app_nil_r|reflexivity]
      | by eexists _, [_], _; split; [reflexivity|reflexivity]
      | by eexists _, [_; _], _; split; [reflexivity|reflexivity]
      | by eexists _, [_; _; _], _; split; [reflexivity|reflexivity]
      | by eexists _, [_; _; _; _], _; split; [reflexivity|reflexivity] ].
  Unshelve. all: exact EmptyString.
Qed.

(** C2 (amended): a fetch that starts with a cached token and lands on a
    page with a Login text node, and whose handshake requests are answered,
    sends the root request, the login challenge and one retry under the
    token just read, and nothing more; when the retried page shows Login
    again, [writeMetrics] fails without a further request. *)
Theorem stale_token_one_handshake_one_retry
    (s : state World) (body1 body2 body3 : Body) (w1 w2 w3 w4 : World)
    (page1 : Node) (tok : string) (answer : error + Body) :
  let f := fet s in
  let s4 := {| fet := setToken f tok; world := w4;
               sent := sent s ++ [pageRequest f (token f); loginPageRequest f;
                                  authRequest EncodeToString f;
                                  pageRequest f tok];
               written := written s |} in
  token f <> EmptyString ->
  url_Parse (URL (pageRequest f (token f))) = None ->
  Do (pageRequest f (token f)) (world s) = (inr body1, w1) ->
  html_Parse body1 = (page1, None) ->
  findTextNode [] page1 "Login" <> None ->
  url_Parse (URL (loginPageRequest f)) = None ->
  Do (loginPageRequest f) w1 = (inr body2, w2) ->
  url_Parse (URL (authRequest EncodeToString f)) = None ->
  Do (authRequest EncodeToString f) w2 = (inr body3, w3) ->
  ReadAll body3 = (tok, None) ->
  url_Parse (URL (pageRequest f tok)) = None ->
  Do (pageRequest f tok) w3 = (answer, w4) ->
  fetchPage' s
  = (match answer with
     | inl err => (nil, Some err)
     | inr body4 => html_Parse body4
     end, s4)
  /\ (forall body4 page2,
        answer = inr body4 ->
        html_Parse body4 = (page2, None) ->
        findTextNode [] page2 "Login" <> None ->
        writeMetrics' s
        = (Return (Some (errorString "Unable to get past login page")), s4)).
Proof.
  intros f s4 Htok Hu1 Hd1 Hp1 HL1 Hu2 Hd2 Hu3 Hd3 Hr Hu4 Hd4.
  assert (fetchPage' s
          = (match answer with
             | inl err => (nil, Some err)
             | inr body4 => html_Parse body4
             end, s4)) as Hfetch.
  { unfold fetchPage. fold f.
    destruct (String.eqb_spec (token f) EmptyString) as [E|_]; [done|].
    rewrite (fetchPageInner_answered s (inr body1) w1); [|done|done].
    rewrite Hp1. destruct (findTextNode [] page1 "Login") as [found|]; [|done].
    erewrite authenticate_answered; cbn [fet world]; eauto.
    unfold s4. cbn [sent written]. by rewrite <- app_assoc. }
  split; [done|].
  intros body4 page2 -> Hp2 HL2. unfold writeMetrics. rewrite Hfetch, Hp2.
  unfold writePage. by destruct (findTextNode [] page2 "Login").
Qed.

End FetcherProperties.

(** ** The theorems at work on the sample pages *)

Lemma scan_of_the_status_page :
  Parent Sample.downTitle = Some (tail Sample.downTitle)
  /\ Parent (tail Sample.downTitle) = Some (tail (tail Sample.downTitle))
  /\ Parent (tail (tail Sample.downTitle)) = Some Sample.downHeaderRow
  /\ parseDownstream Sample.ParseFloat Sample.statusPage
     = (let* rows := go_mapM rowCells
                       (List.filter qualifies
                          (siblings (target Sample.statusPage
                                       (Some Sample.downHeaderRow)))) in
        parseDownstreamRows Sample.ParseFloat rows []).
Proof.
  split; [reflexivity|]. split; [reflexivity|]. split; [reflexivity|].
  destruct (scan_starts_three_levels_up_and_follows_the_siblings
              Sample.ParseFloat Sample.statusPage Sample.downTitle
              (tail Sample.downTitle) (tail (tail Sample.downTitle))
              (Some Sample.downHeaderRow) eq_refl eq_refl eq_refl)
    as (_ & Hdown & _).
  apply Hdown. reflexivity.
Defined.

(** The claim as worded, with the children of the node three levels up in
    place of its siblings, fails on the page whose title sits directly in
    the header cell: three levels up is the table body, the scan finds no
    row and the parse returns no record, while the table body has a data
    row among its children. *)
Lemma scan_is_not_over_the_children :
  findTextNode [] Sample.plainTitlePage "Downstream Bonded Channels"
  = Some [down; down; down; down; down; next; down; down]
  /\ threeUp [down; down; down; down; down; next; down; down]
     = Return (Some [down; down; next; down; down])
  /\ scrapeTable (target Sample.plainTitlePage (Some [down; down; next; down; down]))
     = Return []
  /\ go_mapM rowCells
       (List.filter qualifies
          (children (target Sample.plainTitlePage
                       (Some [down; down; next; down; down]))))
     = Return [Sample.downCells]
  /\ parseDownstream Sample.ParseFloat Sample.plainTitlePage = Return ([], None).
Proof. repeat split. Qed.

Lemma downCells_schema : downstreamSchema Sample.ParseFloat Sample.downCells.
Proof.
  exists "1", "Locked", "QAM256", "543000000 Hz", "-2.3 dBmV", "39.5 dB", "12", "0", [].
  split; [reflexivity|].
  split; [exists 543000000; split; [reflexivity|lia]|].
  split; [by exists "-2.3"|]. split; [by exists "39.5"|].
  split; [exists 12|exists 0]; (split; [reflexivity|lia]).
Defined.

Lemma downCells2_schema : downstreamSchema Sample.ParseFloat Sample.downCells2.
Proof.
  exists "2", "Locked", "QAM256", "549000000 Hz", "-2.1 dBmV", "39.8 dB", "7", "3", [].
  split; [reflexivity|].
  split; [exists 549000000; split; [reflexivity|lia]|].
  split; [by exists "-2.1"|]. split; [by exists "39.8"|].
  split; [exists 7|exists 3]; (split; [reflexivity|lia]).
Defined.

Lemma records_of_the_status_page :
  Forall (downstreamSchema Sample.ParseFloat) [Sample.downCells; Sample.downCells2]
  /\ exists recs,
       parseDownstream Sample.ParseFloat Sample.statusPage = Return (recs, None)
       /\ length recs
          = length (List.filter qualifies
                      (siblings (target Sample.statusPage
                                   (Some Sample.downHeaderRow))))
       /\ Forall2 (downstreamRecordOf Sample.ParseFloat)
            [Sample.downCells; Sample.downCells2] recs.
Proof.
  assert (Forall (downstreamSchema Sample.ParseFloat)
            [Sample.downCells; Sample.downCells2]) as Hschema.
  { repeat constructor; [apply downCells_schema|apply downCells2_schema]. }
  split; [exact Hschema|].
  apply (parseDownstream_one_record_per_data_row Sample.ParseFloat
           Sample.statusPage Sample.downTitle (Some Sample.downHeaderRow)
           [Sample.downCells; Sample.downCells2]);
    [reflexivity|reflexivity|reflexivity|exact Hschema].
Defined.

Lemma lines_of_the_status_page :
  Sample.run (Sample.start Sample.freshWorld)
  = (Return None,
     Write (Sample.fetch (Sample.start Sample.freshWorld)).2
       (concatLines
          (flat_map (downstreamLines Sample.FormatFloat Sample.Quote)
             Sample.downRecords
           ++ flat_map (upstreamLines Sample.FormatFloat Sample.Quote)
                Sample.upRecords)))
  /\ length
       (flat_map (downstreamLines Sample.FormatFloat Sample.Quote)
          Sample.downRecords
        ++ flat_map (upstreamLines Sample.FormatFloat Sample.Quote)
             Sample.upRecords)
     = (5 * 2 + 3 * 1)%nat.
Proof.
  apply (writeMetrics_emits_the_lines_in_order Sample.ParseFloat
           Sample.FormatFloat Sample.Quote Sample.Do Sample.ReadAll
           Sample.html_Parse Sample.url_Parse Sample.EncodeToString
           (Sample.start Sample.freshWorld)
           (Sample.fetch (Sample.start Sample.freshWorld)).2
           Sample.statusPage Sample.downRecords Sample.upRecords);
    reflexivity.
Defined.

Lemma same_page_same_output :
  written (Sample.start Sample.freshWorld) = written Sample.firstRun
  /\ (Sample.run (Sample.start Sample.freshWorld)).1 = (Sample.run Sample.firstRun).1
  /\ written (Sample.run (Sample.start Sample.freshWorld)).2
     = written (Sample.run Sample.firstRun).2.
Proof.
  split; [reflexivity|].
  apply (output_is_a_function_of_the_page Sample.ParseFloat
           Sample.FormatFloat Sample.Quote Sample.Do Sample.ReadAll
           Sample.html_Parse Sample.url_Parse Sample.EncodeToString
           (Sample.start Sample.freshWorld) Sample.firstRun
           (Sample.fetch (Sample.start Sample.freshWorld)).2
           (Sample.fetch Sample.firstRun).2 Sample.statusPage);
    reflexivity.
Defined.

Lemma stale_token_on_the_scripted_modem :
  token Sample.modem <> EmptyString
  /\ findTextNode [] Sample.loginPage "Login" <> None
  /\ Sample.fetch (Sample.start Sample.staleWorld)
     = ((Sample.loginPage, None),
        {| fet := setToken Sample.modem "fresh"; world := [];
           sent := [pageRequest Sample.modem "stale";
                    loginPageRequest Sample.modem;
                    authRequest Sample.EncodeToString Sample.modem;
                    pageRequest Sample.modem "fresh"];
           written := EmptyString |})
  /\ Sample.run (Sample.start Sample.staleWorld)
     = (Return (Some (errorString "Unable to get past login page")),
        {| fet := setToken Sample.modem "fresh"; world := [];
           sent := [pageRequest Sample.modem "stale";
                    loginPageRequest Sample.modem;
                    authRequest Sample.EncodeToString Sample.modem;
                    pageRequest Sample.modem "fresh"];
           written := EmptyString |}).
Proof.
  split; [discriminate|]. split; [discriminate|].
  destruct (stale_token_one_handshake_one_retry Sample.ParseFloat
              Sample.FormatFloat Sample.Quote Sample.Do Sample.ReadAll
              Sample.html_Parse Sample.url_Parse Sample.EncodeToString
              (Sample.start Sample.staleWorld)
              (Sample.pageBody Sample.loginPage) (Sample.pageBody nil)
              (Sample.tokenBody "fresh")
              [inr (Sample.pageBody nil); inr (Sample.tokenBody "fresh");
               inr (Sample.pageBody Sample.loginPage)]
              [inr (Sample.tokenBody "fresh");
               inr (Sample.pageBody Sample.loginPage)]
              [inr (Sample.pageBody Sample.loginPage)] []
              Sample.loginPage "fresh"
              (inr (Sample.pageBody Sample.loginPage)))
    as [Hfetch Hfail];
    try reflexivity; try discriminate.
  split; [exact Hfetch|].
  apply (Hfail (Sample.pageBody Sample.loginPage) Sample.loginPage);
    [reflexivity|reflexivity|discriminate].
Defined.

(** The claim as worded fails when the modem stops answering after the
    login page: the fetch starts with a cached token and lands on the login
    page, yet it ends with the transport error after the root request, with
    no login challenge and no retry. *)
Lemma no_retry_when_the_handshake_fails :
  token Sample.modem <> EmptyString
  /\ Sample.Do (pageRequest Sample.modem "stale") Sample.deadWorld
     = (inr (Sample.pageBody Sample.loginPage), [inl (ioError "timeout")])
  /\ findTextNode [] Sample.loginPage "Login" <> None
  /\ Sample.fetch (Sample.start Sample.deadWorld)
     = ((nil, Some (ioError "timeout")),
        {| fet := Sample.modem; world := [];
           sent := [pageRequest Sample.modem "stale";
                    loginPageRequest Sample.modem];
           written := EmptyString |})
  /\ forall tok,
       sent (Sample.fetch (Sample.start Sample.deadWorld)).2
       <> [pageRequest Sample.modem "stale"; loginPageRequest Sample.modem;
           authRequest Sample.EncodeToString Sample.modem;
           pageRequest Sample.modem tok].
Proof.
  split; [discriminate|]. split; [reflexivity|]. split; [discriminate|].
  split; [reflexivity|]. intros tok H. vm_compute in H. discriminate.
Qed.

(** * Further properties of the parser *)

Lemma go_mapM_Forall2 {A B} (f : A -> go B) l ys :
  go_mapM f l = Return ys -> Forall2 (fun x y => f x = Return y) l ys.
Proof.
  revert ys; induction l as [|x l IH]; simpl; intros ys H.
  - inversion H. constructor.
  - destruct (f x) as [y|] eqn:E; simpl in H; [|done].
    destruct (go_mapM f l) as [zs|]; simpl in H; [|done].
    inversion H; subst. constructor; [done|by apply IH].
Qed.

Lemma go_mapM_returns {A B} (f : A -> go B) l :
  (exists ys, go_mapM f l = Return ys) <->
  forall x, x ∈ l -> exists y, f x = Return y.
Proof.
  induction l as [|x l IH]; simpl.
  - split; [intros _ x Hx; by apply elem_of_nil in Hx|eauto].
  - split.
    + intros [ys H] z Hz.
      destruct (f x) as [y|] eqn:E; simpl in H; [|done].
      destruct (go_mapM f l) as [zs|] eqn:El; simpl in H; [|done].
      apply elem_of_cons in Hz as [->|Hz]; [eauto|].
      apply IH; eauto.
    + intros H. destruct (H x) as [y ->]; [by left|]. simpl.
      destruct IH as [_ IH]. destruct IH as [zs ->].
      { intros z Hz. apply H. by right. }
      simpl. eauto.
Qed.

Lemma go_mapM_panic {A B} (f : A -> go B) l p :
  go_mapM f l = Panics p -> exists x, x ∈ l /\ f x = Panics p.
Proof.
  induction l as [|x l IH]; simpl; [done|].
  destruct (f x) as [y|q] eqn:E; simpl.
  - destruct (go_mapM f l) as [zs|q]; simpl; [done|].
    intros H. destruct IH as (z & Hz & Hf); [done|].
    exists z. split; [by right|done].
  - intros H. inversion H; subst. exists x. split; [by left|done].
Qed.

Lemma cellText_returns c : (exists t, cellText c = Return t) <-> children c <> [].
Proof.
  unfold cellText. destruct (children c); split; try done; eauto.
  by intros [t H].
Qed.

Lemma elem_of_filter_bool {A} (f : A -> bool) (l : list A) x :
  x ∈ List.filter f l <-> x ∈ l /\ f x = true.
Proof. rewrite !list_elem_of_In. apply filter_In. Qed.

(** X1: [scrapeTable] returns exactly when every td child of every scanned
    data row has a first child; its only panic is the nil dereference; and
    what it returns has one row per data row and in each row one column per
    td child, in order. *)
Theorem scrapeTable_returns_iff_every_cell_has_a_child (rowPtr : Node) :
  ((exists rows, scrapeTable rowPtr = Return rows) <->
   (forall row c, row ∈ siblings rowPtr -> qualifies row = true ->
                  c ∈ children row -> isCell c = true -> children c <> []))
  /\ (forall p, scrapeTable rowPtr = Panics p -> p = NilDereference)
  /\ (forall rows, scrapeTable rowPtr = Return rows ->
        Forall2 (fun row cols =>
                   Forall2 (fun c col => cellText c = Return col)
                     (List.filter isCell (children row)) cols)
          (List.filter qualifies (siblings rowPtr)) rows).
Proof.
  rewrite scrapeTable_rows. split; [|split].
  - rewrite go_mapM_returns. split.
    + intros H row c Hrow Hq Hc Hcell.
      destruct (H row) as [cols Hcols]; [by apply elem_of_filter_bool|].
      apply cellText_returns.
      assert (exists cols, rowCells row = Return cols) as Hex by eauto.
      unfold rowCells in Hex. rewrite go_mapM_returns in Hex.
      apply Hex. by apply elem_of_filter_bool.
    + intros H row Hrow. apply elem_of_filter_bool in Hrow as [Hrow Hq].
      unfold rowCells. apply go_mapM_returns. intros c Hc.
      apply elem_of_filter_bool in Hc as [Hc Hcell].
      apply cellText_returns. eauto.
  - intros p H. apply go_mapM_panic in H as (row & _ & H).
    unfold rowCells in H. apply go_mapM_panic in H as (c & _ & H).
    unfold cellText in H. destruct (children c); by inversion H.
  - intros rows H. apply go_mapM_Forall2 in H.
    eapply Forall2_impl; [exact H|]. intros row cols Hrow.
    by apply go_mapM_Forall2.
Qed.

Section ParserEdges.

Context {float64 : Type} (ParseFloat : string -> float64 * option NumError).

Lemma upstreamRow_schema row :
  upstreamSchema ParseFloat row ->
  exists u, upstreamRow ParseFloat row = Return (inr u)
            /\ upstreamRecordOf ParseFloat row u.
Proof.
  intros (c0 & c1 & c2 & c3 & c4 & c5 & c6 & more & -> & H4 & H5 & H6).
  apply int64Text_ParseInt in H4 as (v4 & P4 & D4).
  apply int64Text_ParseInt in H5 as (v5 & P5 & D5).
  destruct H6 as [v6 P6].
  exists (Up.mk c0 c1 c2 c3 v4 v5 v6). split.
  - unfold upstreamRow. cbn [app index lookup list_lookup go_bind length].
    rewrite !index_Split_first. cbn [go_bind].
    by rewrite P4, P5, P6.
  - unfold upstreamRecordOf; simpl. repeat split; eauto.
Qed.

Lemma parseUpstreamRows_schema rows :
  Forall (upstreamSchema ParseFloat) rows ->
  forall data, exists recs,
    parseUpstreamRows ParseFloat rows data = Return ((data ++ recs)%list, None)
    /\ Forall2 (upstreamRecordOf ParseFloat) rows recs.
Proof.
  induction 1 as [|row rows Hrow _ IH]; intros data; simpl.
  - exists []. by rewrite app_nil_r.
  - destruct (upstreamRow_schema row Hrow) as (u & -> & Hu). simpl.
    destruct (IH (data ++ [u])%list) as (recs & -> & Hrecs).
    exists (u :: recs). split; [by rewrite <- app_assoc|by constructor].
Qed.

(** X2: on a page whose upstream heading is found with its Parent chain
    and whose data rows match the upstream schema, [parseUpstream] returns
    one record per data row, in document order: columns 0 to 3 as they
    are, the frequency, the width and the power read before the first
    space of columns 4 to 6. *)
Theorem parseUpstream_one_record_per_data_row
    (page : Node) (tableTitle : ptr) (rowPtr : option ptr)
    (rows : list (list string)) :
  findTextNode [] page "Upstream Bonded Channels" = Some tableTitle ->
  threeUp tableTitle = Return rowPtr ->
  go_mapM rowCells (List.filter qualifies (siblings (target page rowPtr)))
  = Return rows ->
  Forall (upstreamSchema ParseFloat) rows ->
  exists recs,
    parseUpstream ParseFloat page = Return (recs, None)
    /\ length recs
       = length (List.filter qualifies (siblings (target page rowPtr)))
    /\ Forall2 (upstreamRecordOf ParseFloat) rows recs.
Proof.
  intros Hfind Hup Hrows Hschema.
  destruct (parseUpstreamRows_schema rows Hschema []) as (recs & Hrecs & Hall).
  exists recs. split; [|split; [|done]].
  - unfold parseUpstream. rewrite Hfind, Hup. cbn [go_bind].
    by rewrite scrapeTable_rows, Hrows.
  - apply Forall2_length in Hall. apply go_mapM_length in Hrows. lia.
Qed.

(** X3: an error never comes with records: whenever a parser returns an
    error the list is nil, and the error is its own not-found error or a
    [*NumError] of a conversion. *)
Theorem parse_errors_carry_no_records (page : Node) :
  (forall l err,
     parseDownstream ParseFloat page = Return (l, Some err) ->
     l = [] /\
     (err = errorString "unable to find downstream bonded channels table"
      \/ exists n, err = numError n))
  /\ (forall l err,
        parseUpstream ParseFloat page = Return (l, Some err) ->
        l = [] /\
        (err = errorString "unable to find upstream bonded channels table"
         \/ exists n, err = numError n)).
Proof.
  split; intros l err H.
  - unfold parseDownstream in H.
    destruct (findTextNode _ _ _) as [t|]; [|inversion H; eauto].
    destruct (threeUp t) as [r|]; [|done]. cbn [go_bind] in H.
    destruct (scrapeTable _) as [rows|]; [|done]. cbn [go_bind] in H.
    apply parseDownstreamRows_error in H as [-> Hn]. eauto.
  - unfold parseUpstream in H.
    destruct (findTextNode _ _ _) as [t|]; [|inversion H; eauto].
    destruct (threeUp t) as [r|]; [|done]. cbn [go_bind] in H.
    destruct (scrapeTable _) as [rows|]; [|done]. cbn [go_bind] in H.
    apply parseUpstreamRows_error in H as [-> Hn]. eauto.
Qed.

Lemma Parent_depth p :
  match Parent p with
  | None => depth p = O
  | Some q => depth p = S (depth q)
  end.
Proof. induction p as [|[] p IH]; simpl; [done|done|exact IH]. Qed.

Lemma threeUp_depth t :
  ((2 <= depth t)%nat -> exists r, threeUp t = Return r)
  /\ ((depth t < 2)%nat -> threeUp t = Panics NilDereference).
Proof.
  unfold threeUp; simpl. pose proof (Parent_depth t) as H1.
  destruct (Parent t) as [p1|]; simpl.
  - pose proof (Parent_depth p1) as H2.
    destruct (Parent p1) as [p2|]; simpl; split; intros; try lia; eauto.
  - split; [lia|done].
Qed.

(** X4: the Parent chain is safe exactly when the heading has at least two
    ancestors: with fewer, both parsers panic on a nil dereference before
    any row is read; with two or more, the chain yields the node to scan
    (nil when there is no third ancestor). *)
Theorem shallow_heading_panics (page : Node) (tableTitle : ptr) :
  ((depth tableTitle < 2)%nat ->
   (findTextNode [] page "Downstream Bonded Channels" = Some tableTitle ->
    parseDownstream ParseFloat page = Panics NilDereference)
   /\ (findTextNode [] page "Upstream Bonded Channels" = Some tableTitle ->
       parseUpstream ParseFloat page = Panics NilDereference))
  /\ ((2 <= depth tableTitle)%nat -> exists rowPtr, threeUp tableTitle = Return rowPtr).
Proof.
  destruct (threeUp_depth tableTitle) as [Hdeep Hshallow].
  split; [|done]. intros Hd. specialize (Hshallow Hd).
  split; intros Hfind.
  - unfold parseDownstream. by rewrite Hfind, Hshallow.
  - unfold parseUpstream. by rewrite Hfind, Hshallow.
Qed.

(** X5: a page that has the heading but no data row among the scanned
    nodes gives an empty list and no error. *)
Theorem no_data_row_is_no_error
    (page : Node) (tableTitle : ptr) (rowPtr : option ptr) :
  threeUp tableTitle = Return rowPtr ->
  List.filter qualifies (siblings (target page rowPtr)) = [] ->
  (findTextNode [] page "Downstream Bonded Channels" = Some tableTitle ->
   parseDownstream ParseFloat page = Return ([], None))
  /\ (findTextNode [] page "Upstream Bonded Channels" = Some tableTitle ->
      parseUpstream ParseFloat page = Return ([], None)).
Proof.
  intros Hup Hnone. split; intros Hfind.
  - unfold parseDownstream. rewrite Hfind, Hup. cbn [go_bind].
    by rewrite scrapeTable_rows, Hnone.
  - unfold parseUpstream. rewrite Hfind, Hup. cbn [go_bind].
    by rewrite scrapeTable_rows, Hnone.
Qed.

Lemma Atoi_no_space c v : Atoi c = (v, None) -> beforeFirstSpace c = c.
Proof.
  intros H. apply Atoi_ParseInt, ParseInt_spec in H as [H _].
  by eapply decimalValue_no_space.
Qed.

Lemma index_Return {A} (l : list A) i x : index l i = Return x -> l !! i = Some x.
Proof. unfold index. destruct (l !! i); [by inversion 1|done]. Qed.

Lemma downstreamRow_record row d :
  downstreamRow ParseFloat row = Return (inr d) ->
  exists c6 c7 v6 v7,
    row !! 6%nat = Some c6 /\ row !! 7%nat = Some c7
    /\ Atoi c6 = (v6, None) /\ Atoi c7 = (v7, None).
Proof.
  unfold downstreamRow.
  destruct (index row 3) as [c3|]; cbn [go_bind]; [|done].
  destruct (index (Split c3 space) 0) as [s3|]; cbn [go_bind]; [|done].
  destruct (ParseInt s3) as [? [?|]]; [done|].
  destruct (index row 4) as [c4|]; cbn [go_bind]; [|done].
  destruct (index (Split c4 space) 0) as [s4|]; cbn [go_bind]; [|done].
  destruct (ParseFloat s4) as [? [?|]]; [done|].
  destruct (index row 5) as [c5|]; cbn [go_bind]; [|done].
  destruct (index (Split c5 space) 0) as [s5|]; cbn [go_bind]; [|done].
  destruct (ParseFloat s5) as [? [?|]]; [done|].
  destruct (index row 6) as [c6|] eqn:E6; cbn [go_bind]; [|done].
  destruct (Atoi c6) as [v6 [?|]] eqn:A6; [done|].
  destruct (index row 7) as [c7|] eqn:E7; cbn [go_bind]; [|done].
  destruct (Atoi c7) as [v7 [?|]] eqn:A7; [done|].
  intros _. exists c6, c7, v6, v7.
  by repeat split; try apply index_Return.
Qed.

(** X6: the two counters are converted whole: a row whose column 6 or 7
    holds a space never gives a record, and with its eight columns present
    it makes the loop return an error. *)
Theorem counter_with_a_space_fails_the_row (row : list string) (c : string) :
  row !! 6%nat = Some c \/ row !! 7%nat = Some c ->
  beforeFirstSpace c <> c ->
  (forall d, downstreamRow ParseFloat row <> Return (inr d))
  /\ ((8 <= length row)%nat ->
      exists err, downstreamRow ParseFloat row = Return (inl err)).
Proof.
  intros Hc Hspace.
  assert (forall d, downstreamRow ParseFloat row <> Return (inr d)) as Hno.
  { intros d H. apply downstreamRow_record in H
      as (c6 & c7 & v6 & v7 & E6 & E7 & A6 & A7).
    apply Atoi_no_space in A6, A7.
    destruct Hc as [Hc|Hc]; rewrite Hc in *; congruence. }
  split; [done|]. intros Hlen.
  destruct (downstreamRow_returns_on_eight_columns ParseFloat row Hlen)
    as [[err|d] Hr]; [eauto|]. by destruct (Hno d).
Qed.

(** X7: a downstream record comes only from a row of at least eight
    columns, and columns beyond the eighth are never looked at. *)
Theorem downstream_record_needs_eight_columns (row more : list string) :
  (forall d, downstreamRow ParseFloat row = Return (inr d) ->
             (8 <= length row)%nat)
  /\ ((8 <= length row)%nat ->
      downstreamRow ParseFloat (row ++ more) = downstreamRow ParseFloat row).
Proof.
  split.
  - intros d H. apply downstreamRow_record in H as (c6 & c7 & _ & _ & _ & E7 & _).
    apply lookup_lt_Some in E7. lia.
  - destruct row as [|c0 [|c1 [|c2 [|c3 [|c4 [|c5 [|c6 [|c7 rest]]]]]]]];
      simpl; try lia. intros _. reflexivity.
Qed.

End ParserEdges.

(** * Further properties of the fetcher and the writer *)

Section FetcherEdges.

Context {float64 : Type} (ParseFloat : string -> float64 * option NumError).
Context (FormatFloat : float64 -> string) (Quote : string -> string).
Context {World Body : Type} (Do : Request -> World -> (error + Body) * World).
Context (ReadAll : Body -> string * option error).
Context (html_Parse : Body -> Node * option error).
Context (url_Parse : string -> option error).
Context (EncodeToString : string -> string).

Local Abbreviation fetchPage' :=
  (fetchPage Do ReadAll html_Parse url_Parse EncodeToString).
Local Abbreviation writeMetrics' :=
  (writeMetrics ParseFloat FormatFloat Quote Do ReadAll
     html_Parse url_Parse EncodeToString).
Local Abbreviation downstreamLines' := (downstreamLines FormatFloat Quote).

(** X8: whatever the modem answers, one call of [fetchPage] sends a
    beginning of the sequence cached fetch, root page, login challenge,
    fetch under the new token, and nothing else: never more than four
    requests, and only three when no token was cached. *)
Theorem fetchPage_sends_at_most_four_requests (s : state World) :
  exists tok reqs more,
    sent (fetchPage' s).2 = (sent s ++ reqs)%list
    /\ (reqs ++ more)%list = fetchRequests EncodeToString (fet s) tok
    /\ (length reqs <= 4)%nat
    /\ (token (fet s) = EmptyString -> (length reqs <= 3)%nat).
Proof.
  destruct (fetchPage_sends_a_prefix Do ReadAll html_Parse url_Parse
              EncodeToString s) as (tok & reqs & more & Hsent & Hreqs).
  exists tok, reqs, more. split; [done|]. split; [done|].
  apply (f_equal length) in Hreqs. rewrite length_app in Hreqs.
  unfold fetchRequests in Hreqs. rewrite length_app in Hreqs.
  split.
  - destruct (String.eqb _ _); simpl in Hreqs; lia.
  - intros E. rewrite E in Hreqs. simpl in Hreqs. lia.
Qed.

(** X9: a cached token that still works is reused: when the direct fetch
    is answered with a page without a Login text node, [fetchPage] returns
    that page after this one request, which carries no credentials, and
    keeps the token. *)
Theorem working_token_is_reused
    (s : state World) (body : Body) (w : World) (page : Node) :
  token (fet s) <> EmptyString ->
  url_Parse (URL (pageRequest (fet s) (token (fet s)))) = None ->
  Do (pageRequest (fet s) (token (fet s))) (world s) = (inr body, w) ->
  html_Parse body = (page, None) ->
  findTextNode [] page "Login" = None ->
  fetchPage' s
  = ((page, None),
     {| fet := fet s; world := w;
        sent := sent s ++ [pageRequest (fet s) (token (fet s))];
        written := written s |})
  /\ BasicAuth (pageRequest (fet s) (token (fet s))) = None.
Proof.
  intros Htok Hu Hd Hp HL. split; [|done]. unfold fetchPage.
  destruct (String.eqb_spec (token (fet s)) EmptyString) as [E|_]; [done|].
  rewrite (fetchPageInner_answered Do html_Parse url_Parse s (inr body) w);
    [|done|done].
  by rewrite Hp, HL.
Qed.

(** X10: a fetcher made by [newFetcher] has no token, so its first fetch
    starts with the root page, never with a status request under an empty
    token; with the handshake answered it sends three requests and keeps
    the token it read. *)
Theorem first_fetch_is_the_handshake
    (a u p : string) (w w2 w3 w4 : World) (before : list Request)
    (out : string) (body2 body3 : Body) (tok : string) (answer : error + Body) :
  let f := (newFetcher a u p).1 in
  let s := {| fet := f; world := w; sent := before; written := out |} in
  url_Parse (URL (loginPageRequest f)) = None ->
  Do (loginPageRequest f) w = (inr body2, w2) ->
  url_Parse (URL (authRequest EncodeToString f)) = None ->
  Do (authRequest EncodeToString f) w2 = (inr body3, w3) ->
  ReadAll body3 = (tok, None) ->
  url_Parse (URL (pageRequest f tok)) = None ->
  Do (pageRequest f tok) w3 = (answer, w4) ->
  (newFetcher a u p).2 = None
  /\ fetchPage' s
     = (match answer with
        | inl err => (nil, Some err)
        | inr body => html_Parse body
        end,
        {| fet := setToken f tok; world := w4;
           sent := before ++ [loginPageRequest f; authRequest EncodeToString f;
                              pageRequest f tok];
           written := out |}).
Proof.
  intros f s Hu2 Hd2 Hu3 Hd3 Hr Hu4 Hd4. split; [done|].
  unfold fetchPage. cbn [fet s f newFetcher fst token String.eqb].
  by erewrite (authenticate_answered Do ReadAll html_Parse url_Parse
                 EncodeToString s); eauto.
Qed.

(** X11: [fetchPage] never changes the address or the credentials of the
    fetcher, and the token it leaves is the one it found or the bytes it
    read from a response body. *)
Theorem fetchPage_keeps_the_credentials (s : state World) :
  let f' := fet (fetchPage' s).2 in
  addr f' = addr (fet s)
  /\ username f' = username (fet s)
  /\ passwd f' = passwd (fet s)
  /\ (token f' = token (fet s)
      \/ exists body, ReadAll body = (token f', None)).
Proof.
  unfold fetchPage, authenticate, fetchPageInner, NewRequestWithContext,
    client_Do.
  destruct (String.eqb (token (fet s)) EmptyString);
    repeat (cbn [fet world sent written withFetcher setToken addr username
                 passwd token fst snd];
            match goal with
            | |- context [match url_Parse ?x with _ => _ end] =>
                destruct (url_Parse x)
            | |- context [let (_, _) := Do ?r ?w in _] =>
                destruct (Do r w) as [[?|?] ?]
            | |- context [match ReadAll ?b with _ => _ end] =>
                let E := fresh "E" in destruct (ReadAll b) as [? [?|]] eqn:E
            | |- context [match html_Parse ?b with _ => _ end] =>
                destruct (html_Parse b) as [? [?|]]
            | |- context [match findTextNode [] ?n ?x with _ => _ end] =>
                destruct (findTextNode [] n x)
            end);
    cbn [fet world sent written withFetcher setToken addr username
         passwd token fst snd];
    repeat split; eauto.
Qed.

Lemma writePage_appends page (s1 : state World) :
  exists out,
    (writePage ParseFloat FormatFloat Quote page s1).2 = Write s1 out.
Proof.
  unfold writePage.
  destruct (findTextNode _ _ _); [exists EmptyString; by rewrite Write_empty|].
  destruct (parseDownstream _ _) as [[ds [?|]]|];
    [exists EmptyString; by rewrite Write_empty|
    |exists EmptyString; by rewrite Write_empty].
  rewrite fold_writeDownstream.
  destruct (parseUpstream _ _) as [[us [?|]]|]; cbn [snd]; [eauto| |eauto].
  rewrite fold_writeUpstream, Write_Write. eauto.
Qed.

(** X12: [writeMetrics] only appends to the writer: after it, the state is
    the one [fetchPage] left with some bytes added at the end of what was
    written, so the parsing and the printing send no request and touch
    neither the token nor the bytes already written. *)
Theorem writeMetrics_only_appends (s : state World) :
  exists out,
    (writeMetrics' s).2 = Write (fetchPage' s).2 out
    /\ written (writeMetrics' s).2 = written s +:+ out.
Proof.
  pose proof (fetchPage_written Do ReadAll html_Parse url_Parse
                EncodeToString s) as Hw.
  unfold writeMetrics.
  destruct (fetchPage' s) as [[page [err|]] s1]; cbn [snd] in *.
  - exists EmptyString. rewrite Write_empty. split; [done|].
    by rewrite append_empty_r.
  - destruct (writePage_appends page s1) as [out ->].
    exists out. split; [done|]. unfold Write; cbn [written]. by rewrite Hw.
Qed.

(** X13: output is not held back: when the downstream table parses and
    the upstream table fails to convert, [writeMetrics] returns the
    upstream error after the downstream lines have been written. *)
Theorem upstream_failure_leaves_the_downstream_lines
    (s s1 : state World) (page : Node)
    (ds : list (downstreamChannel float64))
    (l : list (upstreamChannel float64)) (err : error) :
  fetchPage' s = ((page, None), s1) ->
  findTextNode [] page "Login" = None ->
  parseDownstream ParseFloat page = Return (ds, None) ->
  parseUpstream ParseFloat page = Return (l, Some err) ->
  writeMetrics' s
  = (Return (Some err),
     Write s1 (concatLines (flat_map downstreamLines' ds))).
Proof.
  intros Hf HL Hd Hu. unfold writeMetrics, writePage.
  by rewrite Hf, HL, Hd, Hu, fold_writeDownstream.
Qed.

(** X14: nothing is written when the run stops before the first loop: on
    an error of the fetch, on a page that shows Login, and when the
    downstream table does not parse. *)
Theorem early_failure_writes_nothing (s : state World) :
  (exists err, (fetchPage' s).1.2 = Some err)
  \/ findTextNode [] (fetchPage' s).1.1 "Login" <> None
  \/ (forall ds, parseDownstream ParseFloat (fetchPage' s).1.1
                 <> Return (ds, None)) ->
  written (writeMetrics' s).2 = written s
  /\ (writeMetrics' s).1 <> Return None.
Proof.
  pose proof (fetchPage_written Do ReadAll html_Parse url_Parse
                EncodeToString s) as Hw.
  unfold writeMetrics, writePage.
  destruct (fetchPage' s) as [[page [err|]] s1]; cbn [fst snd] in *; [done|].
  intros [[err H]|[H|H]]; [done| |].
  - by destruct (findTextNode [] page "Login").
  - destruct (findTextNode [] page "Login"); [done|].
    destruct (parseDownstream ParseFloat page) as [[ds [?|]]|]; [done| |done].
    by destruct (H ds).
Qed.

Lemma earlier_authURL (a u p : string) :
((("https://" +:+ a) +:+ "/cmconnectionstatus.html") +:+ "?login_")
  +:+ EncodeToString ((u +:+ ":") +:+ p)
  = "https://" +:+ a +:+ "/cmconnectionstatus.html?login_"
    +:+ EncodeToString (u +:+ ":" +:+ p).
Proof. by rewrite !append_assoc3. Qed.

Lemma earlier_pageURL (a tok : string) :
  ((("https://" +:+ a) +:+ "/cmconnectionstatus.html") +:+ "?ct_") +:+ tok
  = "https://" +:+ a +:+ "/cmconnectionstatus.html?ct_" +:+ tok.
Proof. by rewrite !append_assoc3. Qed.


End FetcherEdges.

(** ** The further properties at work on the sample pages *)

Lemma upCells_schema : upstreamSchema Sample.ParseFloat Sample.upCells.
Proof.
  exists "1", "4", "Locked", "SC-QAM Upstream", "22800000 Hz", "6400000 Hz",
    "42.5 dBmV", [].
  split; [reflexivity|].
  split; [exists 22800000; split; [reflexivity|lia]|].
  split; [exists 6400000; split; [reflexivity|lia]|].
  by exists "42.5".
Defined.

Lemma upstream_records_of_the_status_page :
  Forall (upstreamSchema Sample.ParseFloat) [Sample.upCells]
  /\ exists recs,
       parseUpstream Sample.ParseFloat Sample.statusPage = Return (recs, None)
       /\ length recs
          = length (List.filter qualifies
                      (siblings (target Sample.statusPage
                                   (Some Cases.upHeaderRow))))
       /\ Forall2 (upstreamRecordOf Sample.ParseFloat) [Sample.upCells] recs.
Proof.
  assert (Forall (upstreamSchema Sample.ParseFloat) [Sample.upCells]) as Hschema.
  { repeat constructor. apply upCells_schema. }
  split; [exact Hschema|].
  apply (parseUpstream_one_record_per_data_row Sample.ParseFloat
           Sample.statusPage Cases.upTitle (Some Cases.upHeaderRow)
           [Sample.upCells]);
    [reflexivity|reflexivity|reflexivity|exact Hschema].
Defined.

Lemma shallow_heading_on_the_sample :
  (depth [down] < 2)%nat
  /\ findTextNode [] Cases.shallowPage "Downstream Bonded Channels" = Some [down]
  /\ parseDownstream Sample.ParseFloat Cases.shallowPage = Panics NilDereference.
Proof.
  assert (depth [down] < 2)%nat as Hd by (simpl; lia).
  split; [exact Hd|]. split; [reflexivity|].
  destruct (shallow_heading_panics Sample.ParseFloat Cases.shallowPage [down])
    as [Hshallow _].
  destruct (Hshallow Hd) as [Hdown _]. apply Hdown. reflexivity.
Defined.

Lemma no_data_row_on_the_plain_title_page :
  threeUp [down; down; down; down; down; next; down; down]
  = Return (Some [down; down; next; down; down])
  /\ parseDownstream Sample.ParseFloat Sample.plainTitlePage = Return ([], None).
Proof.
  split; [reflexivity|].
  destruct (no_data_row_is_no_error Sample.ParseFloat Sample.plainTitlePage
              [down; down; down; down; down; next; down; down]
              (Some [down; down; next; down; down]) eq_refl eq_refl)
    as [Hdown _].
  apply Hdown. reflexivity.
Defined.

Lemma counter_with_unit_on_the_sample :
  beforeFirstSpace "12 errors" <> "12 errors"
  /\ exists err,
       downstreamRow Sample.ParseFloat Cases.counterWithUnit = Return (inl err).
Proof.
  assert (beforeFirstSpace "12 errors" <> "12 errors") as Hs by discriminate.
  split; [exact Hs|].
  destruct (counter_with_a_space_fails_the_row Sample.ParseFloat
              Cases.counterWithUnit "12 errors" (or_introl eq_refl) Hs)
    as [_ Herr].
  apply Herr. simpl. lia.
Defined.

Lemma working_token_on_the_scripted_modem :
  token (fet (Sample.start Sample.freshWorld)) <> EmptyString
  /\ Sample.fetch (Sample.start Sample.freshWorld)
     = ((Sample.statusPage, None),
        {| fet := Sample.modem; world := [];
           sent := [pageRequest Sample.modem "stale"];
           written := EmptyString |}).
Proof.
  split; [discriminate|].
  refine (proj1 (working_token_is_reused Sample.Do Sample.ReadAll
                   Sample.html_Parse Sample.url_Parse Sample.EncodeToString
                   (Sample.start Sample.freshWorld)
                   (Sample.pageBody Sample.statusPage) [] Sample.statusPage
                   _ _ _ _ _));
    [discriminate|reflexivity|reflexivity|reflexivity|reflexivity].
Defined.

Lemma first_fetch_on_the_scripted_modem :
  Sample.fetch
    {| fet := (newFetcher "192.168.100.1" "admin" "secret").1;
       world := Cases.handshakeWorld Sample.statusPage;
       sent := []; written := EmptyString |}
  = ((Sample.statusPage, None),
     {| fet := setToken (newFetcher "192.168.100.1" "admin" "secret").1 "fresh";
        world := [];
        sent := [loginPageRequest Sample.modem;
                 authRequest Sample.EncodeToString Sample.modem;
                 pageRequest Sample.modem "fresh"];
        written := EmptyString |}).
Proof.
  refine (proj2 (first_fetch_is_the_handshake Sample.Do Sample.ReadAll
                   Sample.html_Parse Sample.url_Parse Sample.EncodeToString
                   "192.168.100.1" "admin" "secret"
                   (Cases.handshakeWorld Sample.statusPage)
                   [inr (Sample.tokenBody "fresh");
                    inr (Sample.pageBody Sample.statusPage)]
                   [inr (Sample.pageBody Sample.statusPage)] [] []
                   EmptyString (Sample.pageBody nil) (Sample.tokenBody "fresh")
                   "fresh" (inr (Sample.pageBody Sample.statusPage))
                   _ _ _ _ _ _ _));
    reflexivity.
Defined.

Lemma half_page_leaves_the_downstream_lines :
  parseUpstream Sample.ParseFloat Cases.halfPage
  = Return ([], Some (syntaxError "ParseInt" "n/a"))
  /\ Sample.run (Sample.start [inr (Sample.pageBody Cases.halfPage)])
     = (Return (Some (syntaxError "ParseInt" "n/a")),
        Write (Sample.fetch (Sample.start [inr (Sample.pageBody Cases.halfPage)])).2
          (concatLines
             (flat_map (downstreamLines Sample.FormatFloat Sample.Quote)
                [Down.mk "1" "Locked" "QAM256" 543000000 "-2.3" "39.5" 12 0]))).
Proof.
  split; [reflexivity|].
  apply (upstream_failure_leaves_the_downstream_lines Sample.ParseFloat
           Sample.FormatFloat Sample.Quote Sample.Do Sample.ReadAll
           Sample.html_Parse Sample.url_Parse Sample.EncodeToString
           (Sample.start [inr (Sample.pageBody Cases.halfPage)])
           (Sample.fetch (Sample.start [inr (Sample.pageBody Cases.halfPage)])).2
           Cases.halfPage
           [Down.mk "1" "Locked" "QAM256" 543000000 "-2.3" "39.5" 12 0] []);
    reflexivity.
Defined.

Lemma dead_modem_writes_nothing :
  (Sample.fetch (Sample.start Sample.deadWorld)).1.2 = Some (ioError "timeout")
  /\ written (Sample.run (Sample.start Sample.deadWorld)).2 = EmptyString
  /\ (Sample.run (Sample.start Sample.deadWorld)).1 <> Return None.
Proof.
  split; [reflexivity|].
  apply (early_failure_writes_nothing Sample.ParseFloat Sample.FormatFloat
           Sample.Quote Sample.Do Sample.ReadAll Sample.html_Parse
           Sample.url_Parse Sample.EncodeToString
           (Sample.start Sample.deadWorld)).
  left. exists (ioError "timeout"). reflexivity.
Defined.

(** * Further properties of the loop bodies *)

Lemma beforeFirstSpace_idempotent s :
  beforeFirstSpace (beforeFirstSpace s) = beforeFirstSpace s.
Proof.
  induction s as [|c s IH]; simpl; [done|].
  destruct (Ascii.eqb c " ") eqn:E; [done|]. simpl. by rewrite E, IH.
Qed.

Section RowEdges.

Context {float64 : Type} (ParseFloat : string -> float64 * option NumError).

Lemma upstreamRow_record row u :
  upstreamRow ParseFloat row = Return (inr u) ->
  exists c6, row !! 6%nat = Some c6.
Proof.
  unfold upstreamRow.
  destruct (index row 4) as [c4|]; cbn [go_bind]; [|done].
  destruct (index (Split c4 space) 0) as [s4|]; cbn [go_bind]; [|done].
  destruct (ParseInt s4) as [? [?|]]; [done|].
  destruct (index row 5) as [c5|]; cbn [go_bind]; [|done].
  destruct (index (Split c5 space) 0) as [s5|]; cbn [go_bind]; [|done].
  destruct (ParseInt s5) as [? [?|]]; [done|].
  destruct (index row 6) as [c6|] eqn:E6; cbn [go_bind]; [|done].
  intros _. exists c6. by apply index_Return.
Qed.

(** X16: an upstream record comes only from a row of at least seven
    columns; such a row never panics, and columns beyond the seventh are
    never looked at. *)
Theorem upstream_record_needs_seven_columns (row more : list string) :
  (forall u, upstreamRow ParseFloat row = Return (inr u) ->
             (7 <= length row)%nat)
  /\ ((7 <= length row)%nat ->
      (exists r, upstreamRow ParseFloat row = Return r)
      /\ upstreamRow ParseFloat (row ++ more) = upstreamRow ParseFloat row).
Proof.
  split.
  - intros u H. apply upstreamRow_record in H as [c6 E6].
    apply lookup_lt_Some in E6. lia.
  - destruct row as [|c0 [|c1 [|c2 [|c3 [|c4 [|c5 [|c6 rest]]]]]]];
      simpl; try lia. intros _. split; [|reflexivity].
    unfold upstreamRow. cbn [index lookup list_lookup go_bind].
    rewrite !index_Split_first. cbn [go_bind].
    destruct (ParseInt (beforeFirstSpace c4)) as [? [?|]]; [eauto|].
    destruct (ParseInt (beforeFirstSpace c5)) as [? [?|]]; [eauto|].
    destruct (ParseFloat (beforeFirstSpace c6)) as [? [?|]]; eauto.
Qed.

(** X17: the unit is discarded: in columns 3 to 5 of a downstream row only
    what stands before the first space counts, so cutting these cells at
    their first space changes neither the record nor the error. *)
Theorem downstream_units_are_discarded
    (c0 c1 c2 c3 c4 c5 c6 c7 : string) (more : list string) :
  downstreamRow ParseFloat ([c0; c1; c2; c3; c4; c5; c6; c7] ++ more)
  = downstreamRow ParseFloat
      [c0; c1; c2; beforeFirstSpace c3; beforeFirstSpace c4;
       beforeFirstSpace c5; c6; c7].
Proof.
  unfold downstreamRow. cbn [app index lookup list_lookup go_bind].
  rewrite !index_Split_first. cbn [go_bind].
  by rewrite !beforeFirstSpace_idempotent.
Qed.

(** X18: an empty frequency, or one that begins with a space, is a
    conversion error, not a zero: the row fails with the syntax error of
    [ParseInt] on the empty text. *)
Theorem empty_frequency_is_a_syntax_error (row : list string) (c : string) :
  row !! 3%nat = Some c ->
  beforeFirstSpace c = EmptyString ->
  downstreamRow ParseFloat row
  = Return (inl (syntaxError "ParseInt" EmptyString)).
Proof.
  intros Hc Hs. unfold downstreamRow, index. rewrite Hc. cbn [go_bind].
  rewrite Split_first. cbn [go_bind]. by rewrite Hs.
Qed.

End RowEdges.

Lemma empty_frequency_on_a_sample_row :
  downstreamRow Sample.ParseFloat
    ["1"; "Locked"; "QAM256"; " Hz"; "-2.3 dBmV"; "39.5 dB"; "12"; "0"]
  = Return (inl (syntaxError "ParseInt" EmptyString)).
Proof.
  apply (empty_frequency_is_a_syntax_error Sample.ParseFloat _ " Hz");
    reflexivity.
Defined.

(** * From the page to the lines *)

Section EndToEnd.

Context {float64 : Type} (ParseFloat : string -> float64 * option NumError).
Context (FormatFloat : float64 -> string) (Quote : string -> string).
Context {World Body : Type} (Do : Request -> World -> (error + Body) * World).
Context (ReadAll : Body -> string * option error).
Context (html_Parse : Body -> Node * option error).
Context (url_Parse : string -> option error).
Context (EncodeToString : string -> string).

(** X19: fetch, parse and print compose: when the fetched page shows no
    Login and both tables match their schemas, [writeMetrics] returns no
    error and writes five lines for each downstream data row and then three
    for each upstream data row, from records that hold the columns of
    those rows. *)
Theorem well_formed_page_is_printed_whole
    (s s1 : state World) (page : Node)
    (downTitle upTitle : ptr) (downPtr upPtr : option ptr)
    (downRows upRows : list (list string)) :
  fetchPage Do ReadAll html_Parse url_Parse EncodeToString s
  = ((page, None), s1) ->
  findTextNode [] page "Login" = None ->
  findTextNode [] page "Downstream Bonded Channels" = Some downTitle ->
  threeUp downTitle = Return downPtr ->
  go_mapM rowCells (List.filter qualifies (siblings (target page downPtr)))
  = Return downRows ->
  Forall (downstreamSchema ParseFloat) downRows ->
  findTextNode [] page "Upstream Bonded Channels" = Some upTitle ->
  threeUp upTitle = Return upPtr ->
  go_mapM rowCells (List.filter qualifies (siblings (target page upPtr)))
  = Return upRows ->
  Forall (upstreamSchema ParseFloat) upRows ->
  exists ds us,
    Forall2 (downstreamRecordOf ParseFloat) downRows ds
    /\ Forall2 (upstreamRecordOf ParseFloat) upRows us
    /\ writeMetrics ParseFloat FormatFloat Quote Do ReadAll html_Parse
         url_Parse EncodeToString s
       = (Return None,
          Write s1
            (concatLines
               (flat_map (downstreamLines FormatFloat Quote) ds
                ++ flat_map (upstreamLines FormatFloat Quote) us)))
    /\ length (flat_map (downstreamLines FormatFloat Quote) ds
               ++ flat_map (upstreamLines FormatFloat Quote) us)
       = (5 * length downRows + 3 * length upRows)%nat.
Proof.
  intros Hf HL Hdf Hdu Hdr Hds Huf Huu Hur Hus.
  destruct (parseDownstreamRows_schema ParseFloat downRows Hds [])
    as (ds & Hdp & Hdall).
  destruct (parseUpstreamRows_schema ParseFloat upRows Hus [])
    as (us & Hup & Huall).
  exists ds, us. split; [done|]. split; [done|]. split.
  - unfold writeMetrics. rewrite Hf.
    apply writePage_lines; [done| |].
    + unfold parseDownstream. rewrite Hdf, Hdu. cbn [go_bind].
      by rewrite scrapeTable_rows, Hdr.
    + unfold parseUpstream. rewrite Huf, Huu. cbn [go_bind].
      by rewrite scrapeTable_rows, Hur.
  - rewrite length_app.
    rewrite (flat_map_length_const (downstreamLines FormatFloat Quote) 5) by done.
    rewrite (flat_map_length_const (upstreamLines FormatFloat Quote) 3) by done.
    apply Forall2_length in Hdall, Huall. lia.
Qed.

End EndToEnd.

Lemma status_page_is_printed_whole :
  exists ds us,
    Forall2 (downstreamRecordOf Sample.ParseFloat)
      [Sample.downCells; Sample.downCells2] ds
    /\ Forall2 (upstreamRecordOf Sample.ParseFloat) [Sample.upCells] us
    /\ Sample.run (Sample.start Sample.freshWorld)
       = (Return None,
          Write (Sample.fetch (Sample.start Sample.freshWorld)).2
            (concatLines
               (flat_map (downstreamLines Sample.FormatFloat Sample.Quote) ds
                ++ flat_map (upstreamLines Sample.FormatFloat Sample.Quote) us)))
    /\ length (flat_map (downstreamLines Sample.FormatFloat Sample.Quote) ds
               ++ flat_map (upstreamLines Sample.FormatFloat Sample.Quote) us)
       = (5 * 2 + 3 * 1)%nat.
Proof.
  apply (well_formed_page_is_printed_whole Sample.ParseFloat
           Sample.FormatFloat Sample.Quote Sample.Do Sample.ReadAll
           Sample.html_Parse Sample.url_Parse Sample.EncodeToString
           (Sample.start Sample.freshWorld)
           (Sample.fetch (Sample.start Sample.freshWorld)).2
           Sample.statusPage Sample.downTitle Cases.upTitle
           (Some Sample.downHeaderRow) (Some Cases.upHeaderRow)
           [Sample.downCells; Sample.downCells2] [Sample.upCells]);
    try reflexivity.
  - repeat constructor; [apply downCells_schema|apply downCells2_schema].
  - repeat constructor. apply upCells_schema.
Defined.
